(** * LLMFGO backend: the fallback file routes of [src/backend/server.js]

    A shallow embedding of [startServer] and of the four request handlers
    it registers ([/api/files/list], [/api/files/download/:filename],
    [/api/files/clear-cache], [/api/health]), followed by the properties
    of the file-operation layer that the specification states.

    The handlers are synchronous JavaScript over [fs]; they are embedded in
    a state-and-exception monad over an explicit description of the disk.
    [console.log] / [console.error] calls have no effect on any reply and
    are left out.  The properties the specification states are about the
    handlers.  The module-level statements of lines 13-55 (the uploads
    directory, the middleware, the client-side routing page) and the
    order in which Express tries what the file installs are modelled
    apart, with the middleware and the route matching taken as given. *)

From Stdlib Require Import String Ascii List ZArith Bool Arith Lia.
From Stdlib Require Import DecimalString Permutation.
Import ListNotations.
Open Scope string_scope.

Set Implicit Arguments.

(* ================================================================== *)
(** ** Thrown values and the handler monad *)

(** What a JavaScript [throw] carries.  The handlers only ask whether the
    value is an [Error] and, if so, read its [message]. *)
Inductive thrown : Type :=
| Error (message : string)
| NonError (value : string).

(** [err instanceof Error ? err.message : 'Unknown error'] (lines 162, 182). *)
Definition errorMessage (err : thrown) : string :=
  match err with
  | Error message => message
  | NonError _ => "Unknown error"
  end.

Inductive outcome (A : Type) : Type :=
| Returned (a : A)
| Threw (e : thrown).
Arguments Returned {A} a.
Arguments Threw {A} e.

Module IO.
Section Monad.
Variable S : Type.

(** A computation reads and updates the state; what it did before it
    threw stays done. *)
Definition t (A : Type) : Type := S -> outcome A * S.

Definition ret {A} (a : A) : t A := fun s => (Returned a, s).

Definition throw {A} (e : thrown) : t A := fun s => (Threw e, s).

Definition bind {A B} (m : t A) (k : A -> t B) : t B :=
  fun s =>
    match m s with
    | (Returned a, s') => k a s'
    | (Threw e, s') => (Threw e, s')
    end.

(** [try { m } catch (e) { h e }] *)
Definition try_catch {A} (m : t A) (h : thrown -> t A) : t A :=
  fun s =>
    match m s with
    | (Returned a, s') => (Returned a, s')
    | (Threw e, s') => h e s'
    end.

(** [xs.map(f)] for an [f] that may throw: left to right, stopping at
    the first throw. *)
Fixpoint map {A B} (f : A -> t B) (xs : list A) : t (list B) :=
  match xs with
  | [] => ret []
  | x :: rest =>
      bind (f x) (fun y => bind (map f rest) (fun ys => ret (y :: ys)))
  end.
End Monad.
End IO.

Declare Scope io_scope.
Delimit Scope io_scope with io.
Notation "x <- m ;; k" := (IO.bind m (fun x => k))
  (at level 61, m at next level, right associativity) : io_scope.
Notation "m ;;; k" := (IO.bind m (fun _ => k))
  (at level 61, right associativity) : io_scope.

(* ================================================================== *)
(** ** The disk *)

(** Paths the handlers build.  [uploadsDir] is [path.join(__dirname,
    'uploads')] (line 16); every other path is [path.join(uploadsDir, x)]
    for a string [x].  When [x] is an ordinary entry name the result is
    that entry of the directory.  Any other [x] (empty, [.], [..], or
    containing a separator) is not resolved by the model: it is kept as
    written and looked up in [elsewhere].  Where [path.join] resolves such
    a string to an entry of the directory after all (as [./a.txt]),
    [elsewhere] is to give that object under the string, and the model
    does not keep the two in step once the entry is unlinked.  The
    handlers build such paths from the [:filename] parameter of the
    download route, which unlinks nothing, and from no name of a
    well-formed listing. *)
Inductive path : Type :=
| Uploads
| Entry (name : string)
| Other (raw : string).

Definition uploadsDir : path := Uploads.

(** Both separators, as [path.win32] takes them (the file is deployed
    under iisnode).  Under [path.posix] the backslash is an ordinary
    character: a name that holds one is an entry there, which
    [entry_name] does not admit, so [listing_ok] leaves such listings
    out. *)
Definition is_separator (c : ascii) : bool :=
  (Ascii.eqb c "/" || Ascii.eqb c "\")%char.

Fixpoint has_separator (s : string) : bool :=
  match s with
  | EmptyString => false
  | String c rest => is_separator c || has_separator rest
  end.

(** A string that names a directory entry: one non-empty path segment
    other than [.] and [..]. *)
Definition entry_name (s : string) : bool :=
  negb (s =? "") && negb (s =? ".") && negb (s =? "..")
  && negb (has_separator s).

Definition path_eq_dec (p q : path) : {p = q} + {p <> q}.
Proof. decide equality; apply string_dec. Defined.

(** [path.join(dir, file)] *)
Definition path_join (dir : path) (file : string) : path :=
  match dir with
  | Uploads => if entry_name file then Entry file else Other file
  | Entry name => Other (name ++ "/" ++ file)
  | Other raw => Other (raw ++ "/" ++ file)
  end.

Definition path_text (p : path) : string :=
  match p with
  | Uploads => "uploads"
  | Entry name => "uploads/" ++ name
  | Other raw => "uploads/" ++ raw
  end.

(** One file-system object.  [stat_fault] and [unlink_fault] are the
    messages of the errors that [statSync] and [unlinkSync] throw on it
    (permissions, a busy file, ...), when they do. *)
Record node : Type := {
  is_dir : bool;
  size : Z;
  birthtime : Z;
  stat_fault : option string;
  unlink_fault : option string
}.

(** The uploads directory: its entries in the order [readdirSync] lists
    them, and the message [readdirSync] throws when the directory cannot
    be read. *)
Record directory : Type := {
  readdir_fault : option string;
  entries : list (string * node)
}.

(** The state the handlers run against: the uploads directory (absent
    when [uploadsDir] does not exist), whatever the other paths reach,
    and the paths on which [res.download] throws. *)
Record world : Type := {
  uploads : option directory;
  elsewhere : string -> option node;
  download_fault : path -> option thrown
}.

Definition io := IO.t world.

Fixpoint find_entry (name : string) (es : list (string * node)) : option node :=
  match es with
  | [] => None
  | (n, nd) :: rest => if n =? name then Some nd else find_entry name rest
  end.

Definition remove_entry (name : string) (es : list (string * node))
  : list (string * node) :=
  filter (fun e => negb (fst e =? name)) es.

(** The object a path denotes, if there is one. *)
Definition node_at (w : world) (p : path) : option node :=
  match p with
  | Uploads => None
  | Entry name =>
      match uploads w with
      | Some d => find_entry name (entries d)
      | None => None
      end
  | Other raw => elsewhere w raw
  end.

(** The world with the uploads directory holding [es] instead. *)
Definition with_entries (w : world) (es : list (string * node)) : world :=
  match uploads w with
  | Some d =>
      {| uploads := Some {| readdir_fault := readdir_fault d; entries := es |};
         elsewhere := elsewhere w;
         download_fault := download_fault w |}
  | None => w
  end.

(** The world once the object at [p] is gone. *)
Definition without (w : world) (p : path) : world :=
  match p with
  | Uploads => w
  | Entry name =>
      match uploads w with
      | Some d => with_entries w (remove_entry name (entries d))
      | None => w
      end
  | Other raw =>
      {| uploads := uploads w;
         elsewhere := fun q => if q =? raw then None else elsewhere w q;
         download_fault := download_fault w |}
  end.

Definition enoent (syscall : string) (p : path) : thrown :=
  Error ("ENOENT: no such file or directory, " ++ syscall ++ " '"
         ++ path_text p ++ "'").

(** [fs.Stats], as far as the handlers read it. *)
Record Stats : Type := {
  st_size : Z;
  st_birthtime : Z;
  isDirectory : bool
}.

Definition stats_of (nd : node) : Stats :=
  {| st_size := size nd; st_birthtime := birthtime nd;
     isDirectory := is_dir nd |}.

(** [fs.existsSync(p)]: never throws; [false] whenever the path cannot be
    reached. *)
Definition existsSync (p : path) : io bool :=
  fun w =>
    match p with
    | Uploads =>
        (Returned (match uploads w with Some _ => true | None => false end), w)
    | _ =>
        match node_at w p with
        | Some nd =>
            (Returned (match stat_fault nd with None => true | Some _ => false end), w)
        | None => (Returned false, w)
        end
    end.

(** [fs.readdirSync(p)] *)
Definition readdirSync (p : path) : io (list string) :=
  fun w =>
    match p with
    | Uploads =>
        match uploads w with
        | None => (Threw (enoent "scandir" p), w)
        | Some d =>
            match readdir_fault d with
            | Some message => (Threw (Error message), w)
            | None => (Returned (List.map fst (entries d)), w)
            end
        end
    | _ =>
        match node_at w p with
        | None => (Threw (enoent "scandir" p), w)
        | Some _ =>
            (Threw (Error ("ENOTDIR: not a directory, scandir '"
                           ++ path_text p ++ "'")), w)
        end
    end.

(** [fs.statSync(p)] *)
Definition statSync (p : path) : io Stats :=
  fun w =>
    match p with
    | Uploads =>
        match uploads w with
        | None => (Threw (enoent "stat" p), w)
        | Some _ =>
            (Returned {| st_size := 0; st_birthtime := 0; isDirectory := true |}, w)
        end
    | _ =>
        match node_at w p with
        | None => (Threw (enoent "stat" p), w)
        | Some nd =>
            match stat_fault nd with
            | Some message => (Threw (Error message), w)
            | None => (Returned (stats_of nd), w)
            end
        end
    end.

(** [fs.unlinkSync(p)]: removes a file; refuses a directory. *)
Definition unlinkSync (p : path) : io unit :=
  fun w =>
    match p with
    | Uploads =>
        (Threw (Error "EPERM: operation not permitted, unlink 'uploads'"), w)
    | _ =>
        match node_at w p with
        | None => (Threw (enoent "unlink" p), w)
        | Some nd =>
            match unlink_fault nd with
            | Some message => (Threw (Error message), w)
            | None =>
                if is_dir nd
                then (Threw (Error ("EPERM: operation not permitted, unlink '"
                                    ++ path_text p ++ "'")), w)
                else (Returned tt, without w p)
            end
        end
    end.

(* ================================================================== *)
(** ** Replies *)

#[warnings="-register-all"]
Inductive json : Type :=
| JNum (n : Z)
| JStr (s : string)
| JDate (ms : Z)
| JArr (items : list json)
| JObj (members : list (string * json)).

(** What a handler answers: [res.status(c).json(body)], or the file
    handed to the transport by [res.download(filePath)]. *)
Inductive reply : Type :=
| res_json (status : nat) (body : json)
| res_download (filePath : path).

(** [res.download(filePath)], as the handler's [try] sees it: it either
    throws or takes the file over. *)
Definition download (filePath : path) : io reply :=
  fun w =>
    match download_fault w filePath with
    | Some e => (Threw e, w)
    | None => (Returned (res_download filePath), w)
    end.

(** [file.startsWith('.')] *)
Definition startsWith (file pre : string) : bool := String.prefix pre file.

(** Template-literal rendering of a count. *)
Definition show_nat (n : nat) : string :=
  NilEmpty.string_of_uint (Nat.to_uint n).

Definition JNat (n : nat) : json := JNum (Z.of_nat n).

(* ================================================================== *)
(** ** The fallback handlers (lines 93-185) *)

Local Open Scope io_scope.

(** The descriptor built by the [.map] callback of the list handler
    (lines 97-105). *)
Definition describe (file : string) : io json :=
  let filePath := path_join uploadsDir file in
  stats <- statSync filePath ;;
  IO.ret (JObj [("filename", JStr file);
                ("size", JNum (st_size stats));
                ("createdAt", JDate (st_birthtime stats))]).

(** [GET /api/files/list] (lines 93-112). *)
Definition files_list : io reply :=
  IO.try_catch
    (names <- readdirSync uploadsDir ;;
     files <- IO.map describe
                (filter (fun file => negb (startsWith file ".")) names) ;;
     IO.ret (res_json 200 (JArr files)))
    (fun error =>
       IO.ret (res_json 500 (JObj [("error", JStr "Failed to list files")]))).

(** [GET /api/files/download/:filename] (lines 114-128). *)
Definition files_download (filename : string) : io reply :=
  IO.try_catch
    (let filePath := path_join uploadsDir filename in
     found <- existsSync filePath ;;
     if negb found
     then IO.ret (res_json 404 (JObj [("error", JStr "File not found")]))
     else download filePath)
    (fun error =>
       IO.ret (res_json 500 (JObj [("error", JStr "Failed to download file")]))).

(** The body of the inner [try] (lines 151-160): [true] when the file was
    unlinked, [false] when the [continue] of the directory branch was
    taken. *)
Definition delete_file (file : string) : io bool :=
  let filePath := path_join uploadsDir file in
  stats <- statSync filePath ;;
  if isDirectory stats
  then IO.ret false
  else unlinkSync filePath ;;; IO.ret true.

(** The string pushed on [errors] (line 164). *)
Definition error_line (file : string) (errorMessage : string) : string :=
  file ++ ": " ++ errorMessage.

(** The [for (const file of files)] loop (lines 148-166), threading the
    two locals [deletedCount] and [errors]. *)
Fixpoint clear_loop (files : list string) (deletedCount : nat)
    (errors : list string) : io (nat * list string) :=
  match files with
  | [] => IO.ret (deletedCount, errors)
  | file :: rest =>
      acc <- IO.try_catch
               (deleted <- delete_file file ;;
                IO.ret (if deleted then S deletedCount else deletedCount,
                        errors))
               (fun err =>
                  let errorMessage := errorMessage err in
                  IO.ret (deletedCount,
                          (errors ++ [error_line file errorMessage])%list)) ;;
      clear_loop rest (fst acc) (snd acc)
  end.

(** [file] is passed over by the loop: [statSync] returns and reports a
    directory (lines 151-156). *)
Definition skipped (w : world) (file : string) : bool :=
  match statSync (path_join uploadsDir file) w with
  | (Returned stats, _) => isDirectory stats
  | (Threw _, _) => false
  end.

(** The filter of line 142. *)
Definition clearable (file : string) : bool :=
  negb (startsWith file ".") && negb (file =? "test").

(** The two replies after the loop (lines 168-179). *)
Definition clear_reply (deletedCount : nat) (errors : list string) : reply :=
  if (0 <? length errors)%nat
  then res_json 207 (JObj [
         ("message", JStr ("Cache partially cleared. "
                           ++ show_nat deletedCount ++ " files deleted, "
                           ++ show_nat (length errors) ++ " errors."));
         ("deletedCount", JNat deletedCount);
         ("errors", JArr (List.map JStr errors))])
  else res_json 200 (JObj [
         ("message", JStr "Cache cleared successfully");
         ("deletedCount", JNat deletedCount)]).

(** [POST /api/files/clear-cache] (lines 131-185). *)
Definition files_clear_cache : io reply :=
  IO.try_catch
    (found <- existsSync uploadsDir ;;
     if negb found
     then IO.ret (res_json 200 (JObj [("message", JStr "No cache to clear")]))
     else
       names <- readdirSync uploadsDir ;;
       let files := filter clearable names in
       acc <- clear_loop files 0 [] ;;
       IO.ret (clear_reply (fst acc) (snd acc)))
    (fun error =>
       let errorMessage := errorMessage error in
       IO.ret (res_json 500 (JObj [
         ("error", JStr ("Failed to clear cache: " ++ errorMessage))]))).

(** [GET /api/health] (lines 189-194), reading the module-level flag. *)
Definition health (blobStorageInitialized : bool) : io reply :=
  IO.ret (res_json 200 (JObj [
    ("status", JStr "ok");
    ("blobStorage",
     JStr (if blobStorageInitialized then "connected" else "fallback"))])).

(* ================================================================== *)
(** ** Start-up (lines 58-206) *)

(** How [app.listen(PORT, ...)] (line 197) ends: the port is bound; the
    call throws (a port number out of range); or the call returns and the
    server later emits ['error'] (a port in use), which nothing listens
    for. *)
Inductive listening_result : Type :=
| bound
| listen_throws (e : thrown)
| listen_error (e : thrown).

(** What the steps of [startServer] that can fail meet: [None] when the
    call succeeds, the thrown value otherwise.  [require_routes] stands
    for the two [require]s of lines 82-83, [use_fileRoutes] and
    [use_authRoutes] for the [app.use] calls of lines 86 and 87, which
    throw when what the module exported is no middleware. *)
Record startup : Type := {
  initializeStorage : option thrown;
  initializeCosmosDb : option thrown;
  require_routes : option thrown;
  use_fileRoutes : option thrown;
  use_authRoutes : option thrown;
  app_listen : listening_result
}.

(** The routes mounted below [/api] so far, in the order of mounting:
    nothing; the compiled file router; the compiled file and auth
    routers; the three inline routes; the compiled file router and then
    the three inline routes. *)
Inductive file_routes : Type :=
| no_routes
| compiled_file_routes
| compiled_routes
| fallback_routes
| compiled_then_fallback.

(** The module-level flag and what has been done to [app] so far. *)
Record server : Type := {
  blobStorageInitialized : bool;
  api_files : file_routes;
  health_route : bool;
  listening : bool
}.

Definition loaded : server :=
  {| blobStorageInitialized := false; api_files := no_routes;
     health_route := false; listening := false |}.

Definition boot := IO.t server.

Definition call (result : option thrown) : boot unit :=
  match result with
  | None => IO.ret tt
  | Some e => IO.throw e
  end.

Definition set_blobStorageInitialized (b : bool) : boot unit :=
  fun s => (Returned tt,
            {| blobStorageInitialized := b; api_files := api_files s;
               health_route := health_route s; listening := listening s |}).

Definition mount (r : file_routes) : boot unit :=
  fun s => (Returned tt,
            {| blobStorageInitialized := blobStorageInitialized s;
               api_files := r;
               health_route := health_route s; listening := listening s |}).

(** The [catch] of lines 89-186 adds the inline routes after whatever
    the [try] had mounted before it threw: nothing, or the compiled file
    router (after the second [app.use] nothing in the [try] throws). *)
Definition mount_fallback : boot unit :=
  fun s =>
    mount match api_files s with
          | compiled_file_routes => compiled_then_fallback
          | _ => fallback_routes
          end s.

Definition mount_health : boot unit :=
  fun s => (Returned tt,
            {| blobStorageInitialized := blobStorageInitialized s;
               api_files := api_files s;
               health_route := true; listening := listening s |}).

(** [app.listen(PORT, ...)] (lines 197-199). *)
Definition listen (result : listening_result) : boot unit :=
  match result with
  | bound =>
      fun s => (Returned tt,
                {| blobStorageInitialized := blobStorageInitialized s;
                   api_files := api_files s;
                   health_route := health_route s; listening := true |})
  | listen_throws e => IO.throw e
  | listen_error _ => IO.ret tt
  end.

(** [startServer] (lines 58-200). *)
Definition startServer (env : startup) : boot unit :=
  IO.try_catch
    (call (initializeStorage env) ;;;
     set_blobStorageInitialized true)
    (fun error => IO.ret tt) ;;;
  IO.try_catch
    (call (initializeCosmosDb env))
    (fun error => IO.ret tt) ;;;
  IO.try_catch
    (call (require_routes env) ;;;
     call (use_fileRoutes env) ;;;
     mount compiled_file_routes ;;;
     call (use_authRoutes env) ;;;
     mount compiled_routes)
    (fun error => mount_fallback) ;;;
  mount_health ;;;
  listen (app_listen env).

Inductive process : Type :=
| Running (s : server)
| Exited (code : nat).

(** [startServer().catch(error => process.exit(1))] (lines 203-206); an
    ['error'] event of the server that nothing listens for is an uncaught
    exception, which ends the process with code 1 as well. *)
Definition main (env : startup) : process :=
  match startServer env loaded with
  | (Returned _, s) =>
      match app_listen env with
      | listen_error _ => Exited 1
      | _ => Running s
      end
  | (Threw _, _) => Exited 1
  end.

(* ================================================================== *)
(** ** The vocabulary of the specification *)

(** [ClearCacheResult] of section 3: how many items were deleted, and the
    failures in order. *)
Record ClearCacheResult : Type := {
  deletedCount : nat;
  errors : list json
}.

Fixpoint member (key : string) (members : list (string * json)) : option json :=
  match members with
  | [] => None
  | (k, v) :: rest => if k =? key then Some v else member key rest
  end.

(** The result a caller reads off a reply of the clear-cache route: none
    from a reply that is not a JSON object or that reports [error]; else
    the [deletedCount] and [errors] members, an absent count being no
    deletion and an absent list no failure. *)
Definition result_of (r : reply) : option ClearCacheResult :=
  match r with
  | res_json _ (JObj members) =>
      match member "error" members with
      | Some _ => None
      | None =>
          Some {| deletedCount :=
                    match member "deletedCount" members with
                    | Some (JNum n) => Z.to_nat n
                    | _ => 0%nat
                    end;
                  errors :=
                    match member "errors" members with
                    | Some (JArr items) => items
                    | _ => []
                    end |}
      end
  | _ => None
  end.

(** An [{itemName, message}] record naming [file]. *)
Definition names_item (file : string) (j : json) : bool :=
  match j with
  | JObj members =>
      match member "itemName" members, member "message" members with
      | Some (JStr n), Some _ => n =? file
      | _, _ => false
      end
  | _ => false
  end.

(** A listing as a directory gives it: entry names, no name twice. *)
Fixpoint distinct (names : list string) : bool :=
  match names with
  | [] => true
  | n :: rest => negb (existsb (String.eqb n) rest) && distinct rest
  end.

Definition listing_ok (es : list (string * node)) : bool :=
  distinct (List.map fst es) && forallb entry_name (List.map fst es).

(** The names on which the loop does not take the directory branch. *)
Definition attempted (w : world) (files : list string) : list string :=
  filter (fun file => negb (skipped w file)) files.

(** The eligible items as section 3 words them: every entry of the
    listing except hidden entries, the reserved [test] entry, and
    subdirectories. *)
Definition eligible (es : list (string * node)) : list (string * node) :=
  filter (fun e => clearable (fst e) && negb (is_dir (snd e))) es.

(** What becomes of one entry of the listing in a clear-cache run. *)
Inductive fate : Type :=
| Kept
| Deleted
| Failed (message : string).

Definition fate_of (e : string * node) : fate :=
  let (name, nd) := e in
  if clearable name then
    match stat_fault nd with
    | Some message => Failed message
    | None =>
        if is_dir nd then Kept
        else match unlink_fault nd with
             | Some message => Failed message
             | None => Deleted
             end
    end
  else Kept.

Definition is_deleted (e : string * node) : bool :=
  match fate_of e with Deleted => true | _ => false end.

Definition deleted (es : list (string * node)) : list (string * node) :=
  filter is_deleted es.

Definition survivors (es : list (string * node)) : list (string * node) :=
  filter (fun e => negb (is_deleted e)) es.

Definition failures (es : list (string * node)) : list string :=
  flat_map (fun e => match fate_of e with
                     | Failed message => [error_line (fst e) message]
                     | _ => []
                     end) es.

(** The message with which deleting a file fails, if it does: that of
    [statSync] when it throws, else that of [unlinkSync] when it throws
    (lines 151-158). *)
Definition failure_of (nd : node) : option string :=
  match stat_fault nd with
  | Some message => Some message
  | None => unlink_fault nd
  end.

(** An entry the loop unlinks: its name passes the filter of line 142,
    [statSync] succeeds and reports no directory, and [unlinkSync]
    succeeds. *)
Definition deletable (e : string * node) : bool :=
  clearable (fst e)
  && match stat_fault (snd e) with None => true | Some _ => false end
  && negb (is_dir (snd e))
  && match unlink_fault (snd e) with None => true | Some _ => false end.

(** The descriptor the list route gives for an entry. *)
Definition descriptor (e : string * node) : json :=
  JObj [("filename", JStr (fst e));
        ("size", JNum (size (snd e)));
        ("createdAt", JDate (birthtime (snd e)))].

Definition visible (e : string * node) : bool :=
  negb (startsWith (fst e) ".").

Definition readable (e : string * node) : bool :=
  match stat_fault (snd e) with None => true | Some _ => false end.

(** Every directory whose name passes the filter of line 142 can be
    examined by [statSync]. *)
Definition directories_examinable (es : list (string * node)) : bool :=
  forallb (fun e => negb (clearable (fst e) && is_dir (snd e)) || readable e)
          es.

(** The uploads directory exists. *)
Definition present (w : world) : bool :=
  match uploads w with Some _ => true | None => false end.

(** [name] is an item of the store. *)
Definition in_store (w : world) (name : string) : bool :=
  match uploads w with
  | Some d => existsb (fun e => fst e =? name) (entries d)
  | None => false
  end.

(* ================================================================== *)
(** ** Module load (lines 13-55) and request dispatch *)

(** What the module-level statements meet when the file is loaded: the
    message of the error [fs.mkdirSync] throws, if it does; what requiring
    the two service modules of lines 28-29 throws, if anything;
    [process.env.NODE_ENV]; and [fs.existsSync(frontendBuildPath)]. *)
Record loading : Type := {
  mkdir_fault : option string;
  require_services : option thrown;
  NODE_ENV : option string;
  frontend_built : bool
}.

(** [fs.mkdirSync(uploadsDir, { recursive: true })] (line 18): a new,
    empty directory; an existing one is left alone. *)
Definition mkdirSync_uploadsDir (fault : option string) : io unit :=
  fun w =>
    match fault with
    | Some message => (Threw (Error message), w)
    | None =>
        match uploads w with
        | Some _ => (Returned tt, w)
        | None =>
            (Returned tt,
             {| uploads := Some {| readdir_fault := None; entries := [] |};
                elsewhere := elsewhere w;
                download_fault := download_fault w |})
        end
    end.

(** Lines 16-19. *)
Definition ensure_uploads (fault : option string) : io unit :=
  (found <- existsSync uploadsDir ;;
   if negb found then mkdirSync_uploadsDir fault else IO.ret tt)%io.

(** [process.env.NODE_ENV === 'production'] (line 35). *)
Definition production (cfg : loading) : bool :=
  match NODE_ENV cfg with
  | Some v => v =? "production"
  | None => false
  end.

Inductive method : Type :=
| GET
| HEAD
| POST
| other_method (name : string).

Record req : Type := {
  req_method : method;
  req_url : string
}.

(** What ends a request: a reply of one of the file routes, a
    [res.status(c).send(text)], or a [res.sendFile(file)]. *)
Inductive answer : Type :=
| res_reply (r : reply)
| res_send (status : nat) (text : string)
| res_sendFile (file : string).

(** A middleware or route handler: [None] when it calls [next()]. *)
Definition handler : Type := req -> io (option answer).

(** What the program takes from outside this file: from Express, whether
    a route pattern or a mount path applies to a URL, the value of the
    [:filename] parameter, and the middleware the file installs; from the
    compiled modules, the two routers. *)
Record platform : Type := {
  matches : string -> string -> bool;
  mounted : string -> string -> bool;
  param_filename : string -> string;
  cors : handler;
  json_parser : handler;
  morgan : handler;
  static : string -> handler;
  fileRoutes : handler;
  authRoutes : handler
}.

(** One entry of the application's stack, in the order of the calls. *)
Inductive layer : Type :=
| app_use (mount : string) (h : handler)
| app_get (pattern : string) (h : handler)
| app_post (pattern : string) (h : handler).

(** [app.get] routes also take HEAD requests. *)
Definition applies (ex : platform) (l : layer) (rq : req) : bool :=
  match l with
  | app_use mount _ => mounted ex mount (req_url rq)
  | app_get pattern _ =>
      match req_method rq with
      | GET | HEAD => matches ex pattern (req_url rq)
      | _ => false
      end
  | app_post pattern _ =>
      match req_method rq with
      | POST => matches ex pattern (req_url rq)
      | _ => false
      end
  end.

Definition handler_of (l : layer) : handler :=
  match l with
  | app_use _ h => h
  | app_get _ h => h
  | app_post _ h => h
  end.

(** Express runs the stack in order: a layer that applies is called, and
    the next one is tried only when it called [next()].  [None] at the
    end is Express's own "cannot" page.  The automatic reply to OPTIONS
    requests is not modelled. *)
Fixpoint dispatch (ex : platform) (stack : list layer) (rq : req)
  : io (option answer) :=
  match stack with
  | [] => IO.ret None
  | l :: rest =>
      if applies ex l rq
      then (a <- handler_of l rq ;;
            match a with
            | Some _ => IO.ret a
            | None => dispatch ex rest rq
            end)%io
      else dispatch ex rest rq
  end.

(** [s.includes(sub)] *)
Fixpoint includes (s sub : string) : bool :=
  match s with
  | EmptyString => String.prefix sub s
  | String _ rest => String.prefix sub s || includes rest sub
  end.

(** [path.join(__dirname, '../frontend/build')] (line 36), written
    relative to [__dirname]. *)
Definition frontendBuildPath : string := "../frontend/build".

(** The [app.get('*', ...)] handler of lines 42-51. *)
Definition client_side_routing : handler :=
  fun rq =>
    if startsWith (req_url rq) "/api"
       || startsWith (req_url rq) "/uploads"
       || includes (req_url rq) "."
    then IO.ret (Some (res_send 404 "Not found"))
    else IO.ret (Some (res_sendFile (frontendBuildPath ++ "/index.html"))).

(** Lines 22-25. *)
Definition middleware (ex : platform) : list layer :=
  [app_use "/" (cors ex); app_use "/" (json_parser ex);
   app_use "/" (morgan ex); app_use "/uploads" (static ex "uploads")].

(** Lines 35-55. *)
Definition frontend (ex : platform) (cfg : loading) : list layer :=
  if production cfg
  then if frontend_built cfg
       then [app_use "/" (static ex frontendBuildPath);
             app_get "*" client_side_routing]
       else []
  else [].

Definition reply_with (h : io reply) : handler :=
  fun _ => (r <- h ;; IO.ret (Some (res_reply r)))%io.

(** The three inline routes of lines 93-185. *)
Definition inline_routes (ex : platform) : list layer :=
  [app_get "/api/files/list" (reply_with files_list);
   app_get "/api/files/download/:filename"
     (fun rq =>
        reply_with (files_download (param_filename ex (req_url rq))) rq);
   app_post "/api/files/clear-cache" (reply_with files_clear_cache)].

(** What [startServer] adds to the stack (lines 80-194), read off the
    state it leaves. *)
Definition api_routes (ex : platform) (s : server) : list layer :=
  (match api_files s with
   | no_routes => []
   | compiled_file_routes => [app_use "/api/files" (fileRoutes ex)]
   | compiled_routes =>
       [app_use "/api/files" (fileRoutes ex);
        app_use "/api/auth" (authRoutes ex)]
   | fallback_routes => inline_routes ex
   | compiled_then_fallback =>
       app_use "/api/files" (fileRoutes ex) :: inline_routes ex
   end
   ++ (if health_route s
       then [app_get "/api/health"
               (reply_with (health (blobStorageInitialized s)))]
       else []))%list.

(** The statements of lines 15-55 in order; a throw here is caught by
    nothing. *)
Definition load (ex : platform) (cfg : loading) : io (list layer) :=
  (ensure_uploads (mkdir_fault cfg) ;;;
   match require_services cfg with
   | Some e => IO.throw e
   | None => IO.ret (middleware ex ++ frontend ex cfg)%list
   end)%io.

Inductive started : Type :=
| Serving (s : server) (stack : list layer)
| Crashed (code : nat).

(** The whole file: an uncaught exception ends the process with code 1. *)
Definition program (ex : platform) (cfg : loading) (env : startup)
  : world -> started * world :=
  fun w =>
    match load ex cfg w with
    | (Threw _, w') => (Crashed 1, w')
    | (Returned stack, w') =>
        match main env with
        | Running s => (Serving s (stack ++ api_routes ex s), w')
        | Exited code => (Crashed code, w')
        end
    end.

(** A platform for examples: [*] matches every URL, any other pattern
    only itself; a mount path applies to the URLs it starts; the
    middleware passes every request on and nothing is served statically. *)
Definition pass : handler := fun _ => IO.ret None.

Definition plain_platform : platform :=
  {| matches := fun pattern url => (pattern =? "*") || (pattern =? url);
     mounted := fun mount url => String.prefix mount url;
     param_filename := fun url => url;
     cors := pass; json_parser := pass; morgan := pass;
     static := fun _ => pass;
     fileRoutes := pass; authRoutes := pass |}.

Definition production_build : loading :=
  {| mkdir_fault := None; require_services := None;
     NODE_ENV := Some "production"; frontend_built := true |}.

Definition storage_down : startup :=
  {| initializeStorage := Some (Error "connect ETIMEDOUT");
     initializeCosmosDb := None;
     require_routes := Some (Error "Cannot find module");
     use_fileRoutes := None;
     use_authRoutes := None;
     app_listen := bound |}.

(** The compiled modules load, but [authRoutes] is no middleware. *)
Definition auth_router_missing : startup :=
  {| initializeStorage := None;
     initializeCosmosDb := None;
     require_routes := None;
     use_fileRoutes := None;
     use_authRoutes :=
       Some (Error "Router.use() requires a middleware function");
     app_listen := bound |}.

(** Everything succeeds but the port is taken. *)
Definition port_in_use : startup :=
  {| initializeStorage := None;
     initializeCosmosDb := None;
     require_routes := None;
     use_fileRoutes := None;
     use_authRoutes := None;
     app_listen := listen_error (Error "listen EADDRINUSE") |}.

(* ================================================================== *)
(** ** Sample disks *)

Definition file_node (bytes : Z) : node :=
  {| is_dir := false; size := bytes; birthtime := 1700000000000;
     stat_fault := None; unlink_fault := None |}.

Definition dir_node : node :=
  {| is_dir := true; size := 4096; birthtime := 1700000000000;
     stat_fault := None; unlink_fault := None |}.

Definition disk (es : list (string * node)) : world :=
  {| uploads := Some {| readdir_fault := None; entries := es |};
     elsewhere := fun _ => None;
     download_fault := fun _ => None |}.

(** No uploads directory at all. *)
Definition bare_disk : world :=
  {| uploads := None;
     elsewhere := fun _ => None;
     download_fault := fun _ => None |}.

(** An uploads directory that cannot be listed. *)
Definition unlistable_disk : world :=
  {| uploads := Some {| readdir_fault :=
                          Some "EACCES: permission denied, scandir 'uploads'";
                        entries := [("a.txt", file_node 10)] |};
     elsewhere := fun _ => None;
     download_fault := fun _ => None |}.

(** Three files, the second of which cannot be unlinked. *)
Definition locked_node : node :=
  {| is_dir := false; size := 3; birthtime := 1700000000000;
     stat_fault := None;
     unlink_fault := Some "EPERM: operation not permitted, unlink 'uploads/y'" |}.

Definition xyz_disk : world :=
  disk [("x", file_node 1); ("y", locked_node); ("z", file_node 2)].

(** A subdirectory that cannot be examined, as every entry is when the
    uploads directory may be read but not searched. *)
Definition opaque_dir_node : node :=
  {| is_dir := true; size := 4096; birthtime := 1700000000000;
     stat_fault := Some "EACCES: permission denied, stat 'uploads/sub'";
     unlink_fault := None |}.

Definition opaque_disk : world := disk [("sub", opaque_dir_node)].

(** Three files among other entries: a hidden directory and [test]
    that cannot be examined, a subdirectory, and a second file on which
    [statSync] itself throws. *)
Definition unexaminable_node : node :=
  {| is_dir := false; size := 3; birthtime := 1700000000000;
     stat_fault := Some "EACCES: permission denied, stat 'uploads/y'";
     unlink_fault := None |}.

Definition mixed_disk : world :=
  disk [(".cache", opaque_dir_node); ("x", file_node 1); ("sub", dir_node);
        ("y", unexaminable_node); ("test", opaque_dir_node);
        ("z", file_node 2)].

(** The scenario of section 8. *)
Definition scenario_disk : world :=
  disk [("a.txt", file_node 10); (".git", dir_node); ("test", dir_node);
        ("sub", dir_node)].

(** An empty store below a directory that holds [server.js]. *)
Definition served_disk : world :=
  {| uploads := Some {| readdir_fault := None; entries := [] |};
     elsewhere := fun raw =>
       if raw =? "../server.js" then Some (file_node 6144) else None;
     download_fault := fun _ => None |}.

(** The entries of that scenario, for any four objects. *)
Definition scenario (a g t sub : node) : list (string * node) :=
  [("a.txt", a); (".git", g); ("test", t); ("sub", sub)].

(** A store whose one file makes [res.download] throw. *)
Definition stuck_disk : world :=
  {| uploads := Some {| readdir_fault := None;
                        entries := [("a.txt", file_node 10)] |};
     elsewhere := fun _ => None;
     download_fault := fun p =>
       match p with
       | Entry "a.txt" => Some (Error "EMFILE: too many open files")
       | _ => None
       end |}.

(** The directory of property P2. *)
Definition hidden_disk : world :=
  disk [("a.txt", file_node 10); (".hidden", file_node 5);
        ("b.txt", file_node 20)].

(* ================================================================== *)
(** ** File-system facts *)

Section FileSystem.

Lemma find_entry_remove_same name es :
  find_entry name (remove_entry name es) = None.
Proof.
  induction es as [|[n nd] es IH]; simpl; auto.
  destruct (n =? name) eqn:E; simpl; auto.
  now rewrite E.
Qed.

Lemma find_entry_remove_other name name' es :
  name <> name' ->
  find_entry name' (remove_entry name es) = find_entry name' es.
Proof.
  intros Hne. induction es as [|[n nd] es IH]; simpl; auto.
  destruct (n =? name) eqn:E; simpl.
  - apply String.eqb_eq in E. subst n.
    destruct (name =? name') eqn:E'; auto.
    apply String.eqb_eq in E'. contradiction.
  - now rewrite IH.
Qed.

Lemma node_at_without_same w p :
  node_at (without w p) p = None.
Proof.
  destruct p as [|name|raw]; simpl; auto.
  - destruct (uploads w) as [d|] eqn:U; simpl.
    + unfold with_entries. rewrite U. simpl. apply find_entry_remove_same.
    + now rewrite U.
  - now rewrite String.eqb_refl.
Qed.

Lemma node_at_without_other w p q :
  p <> q -> node_at (without w p) q = node_at w q.
Proof.
  intros Hne.
  destruct p as [|name|raw], q as [|name'|raw']; simpl; auto.
  - destruct (uploads w) as [d|] eqn:U; simpl.
    + unfold with_entries. rewrite U. simpl.
      apply find_entry_remove_other. congruence.
    + now rewrite U.
  - unfold with_entries. destruct (uploads w); reflexivity.
  - destruct (raw' =? raw) eqn:E; auto.
    apply String.eqb_eq in E. congruence.
Qed.

Lemma uploads_present_without w p :
  match uploads (without w p) with Some _ => true | None => false end
  = match uploads w with Some _ => true | None => false end.
Proof.
  destruct p; simpl; auto.
  destruct (uploads w) eqn:U; simpl; auto.
  - unfold with_entries. now rewrite U.
  - now rewrite U.
Qed.

(** [statSync] and [existsSync] only look. *)
Lemma statSync_pure p w : snd (statSync p w) = w.
Proof.
  unfold statSync.
  destruct p; simpl;
    repeat match goal with
           | |- context [match ?x with _ => _ end] => destruct x; simpl
           end; reflexivity.
Qed.

Lemma existsSync_pure p w : snd (existsSync p w) = w.
Proof.
  unfold existsSync.
  destruct p; simpl;
    repeat match goal with
           | |- context [match ?x with _ => _ end] => destruct x; simpl
           end; reflexivity.
Qed.

(** [unlinkSync] changes the disk only when it returns, and then the
    object it was given was a file and is gone. *)
Lemma unlinkSync_cases p w :
  (exists e, unlinkSync p w = (Threw e, w))
  \/ (exists nd, p <> Uploads /\ node_at w p = Some nd /\ is_dir nd = false
                 /\ unlink_fault nd = None
                 /\ unlinkSync p w = (Returned tt, without w p)).
Proof.
  unfold unlinkSync.
  destruct p as [|name|raw].
  - left. eauto.
  - destruct (node_at w (Entry name)) as [nd|] eqn:N; [|left; eauto].
    destruct (unlink_fault nd) eqn:F; [left; eauto|].
    destruct (is_dir nd) eqn:D; [left; eauto|].
    right. exists nd. repeat split; auto. discriminate.
  - destruct (node_at w (Other raw)) as [nd|] eqn:N; [|left; eauto].
    destruct (unlink_fault nd) eqn:F; [left; eauto|].
    destruct (is_dir nd) eqn:D; [left; eauto|].
    right. exists nd. repeat split; auto. discriminate.
Qed.

Lemma statSync_cases p w :
  (exists e, statSync p w = (Threw e, w))
  \/ (exists st, statSync p w = (Returned st, w)).
Proof.
  pose proof (statSync_pure p w) as H.
  destruct (statSync p w) as [[st|e] w'] eqn:E; simpl in H; subst w'; eauto.
Qed.

End FileSystem.

(* ================================================================== *)
(** ** The per-item loop, one iteration at a time *)

Section Loop.

Lemma clear_loop_stat_throws file rest dc errs w e :
  statSync (path_join uploadsDir file) w = (Threw e, w) ->
  clear_loop (file :: rest) dc errs w
  = clear_loop rest dc (errs ++ [error_line file (errorMessage e)])%list w.
Proof.
  intros H. simpl.
  unfold IO.bind at 1, IO.try_catch, delete_file.
  unfold IO.bind at 1. unfold IO.bind at 1. rewrite H. reflexivity.
Qed.

Lemma clear_loop_directory file rest dc errs w stats :
  statSync (path_join uploadsDir file) w = (Returned stats, w) ->
  isDirectory stats = true ->
  clear_loop (file :: rest) dc errs w = clear_loop rest dc errs w.
Proof.
  intros H D. simpl.
  unfold IO.bind at 1, IO.try_catch, delete_file.
  unfold IO.bind at 1. unfold IO.bind at 1. rewrite H, D. reflexivity.
Qed.

Lemma clear_loop_unlinked file rest dc errs w stats w' :
  statSync (path_join uploadsDir file) w = (Returned stats, w) ->
  isDirectory stats = false ->
  unlinkSync (path_join uploadsDir file) w = (Returned tt, w') ->
  clear_loop (file :: rest) dc errs w = clear_loop rest (S dc) errs w'.
Proof.
  intros H D U. simpl.
  unfold IO.bind at 1, IO.try_catch, delete_file.
  unfold IO.bind at 1. unfold IO.bind at 1. rewrite H, D.
  unfold IO.bind at 1. rewrite U. reflexivity.
Qed.

Lemma clear_loop_unlink_throws file rest dc errs w stats e :
  statSync (path_join uploadsDir file) w = (Returned stats, w) ->
  isDirectory stats = false ->
  unlinkSync (path_join uploadsDir file) w = (Threw e, w) ->
  clear_loop (file :: rest) dc errs w
  = clear_loop rest dc (errs ++ [error_line file (errorMessage e)])%list w.
Proof.
  intros H D U. simpl.
  unfold IO.bind at 1, IO.try_catch, delete_file.
  unfold IO.bind at 1. unfold IO.bind at 1. rewrite H, D.
  unfold IO.bind at 1. rewrite U. reflexivity.
Qed.

End Loop.

(* ================================================================== *)
(** ** The aggregate the loop builds *)

Section Aggregate.

Lemma path_join_uploads_not_root file : path_join uploadsDir file <> Uploads.
Proof. simpl. destruct (entry_name file); discriminate. Qed.

Lemma statSync_node p w :
  p <> Uploads ->
  statSync p w
  = match node_at w p with
    | None => (Threw (enoent "stat" p), w)
    | Some nd =>
        match stat_fault nd with
        | Some message => (Threw (Error message), w)
        | None => (Returned (stats_of nd), w)
        end
    end.
Proof. destruct p; simpl; congruence. Qed.

(** Unlinking a file never changes which names the loop passes over. *)
Lemma skipped_without w p nd file :
  p <> Uploads -> node_at w p = Some nd -> is_dir nd = false ->
  skipped (without w p) file = skipped w file.
Proof.
  intros Hp Hnd Hfile. unfold skipped.
  pose proof (path_join_uploads_not_root file) as Hq.
  rewrite !statSync_node by assumption.
  destruct (path_eq_dec p (path_join uploadsDir file)) as [<-|Hne].
  - rewrite node_at_without_same, Hnd.
    destruct (stat_fault nd); simpl; auto.
  - rewrite node_at_without_other by assumption.
    destruct (node_at w (path_join uploadsDir file)) as [n|];
      [destruct (stat_fault n)|]; reflexivity.
Qed.

Lemma attempted_without w p nd files :
  p <> Uploads -> node_at w p = Some nd -> is_dir nd = false ->
  attempted (without w p) files = attempted w files.
Proof.
  intros. unfold attempted. apply filter_ext. intros file.
  now rewrite (skipped_without w file H H0 H1).
Qed.

(** The loop never throws, only ever extends [errors], and accounts for
    every name it did not pass over exactly once. *)
Lemma clear_loop_accounts files :
  forall dc errs w,
  exists dc' more w',
    clear_loop files dc errs w = (Returned (dc', (errs ++ more)%list), w')
    /\ (dc' + length more = dc + length (attempted w files))%nat.
Proof.
  induction files as [|file rest IH]; intros dc errs w.
  - exists dc, [], w. simpl. rewrite app_nil_r. split; [reflexivity|lia].
  - set (p := path_join uploadsDir file).
    assert (Hskip : skipped w file
                    = match statSync p w with
                      | (Returned stats, _) => isDirectory stats
                      | _ => false
                      end) by reflexivity.
    destruct (statSync_cases p w) as [[e He]|[stats Hs]].
    + rewrite (clear_loop_stat_throws file rest dc errs He).
      destruct (IH dc (errs ++ [error_line file (errorMessage e)])%list w)
        as (dc' & more & w' & Hrun & Hcount).
      exists dc', (error_line file (errorMessage e) :: more), w'.
      rewrite Hrun, <- app_assoc. split; [reflexivity|].
      unfold attempted in *. simpl. rewrite Hskip, He. simpl. lia.
    + destruct (isDirectory stats) eqn:D.
      * rewrite (clear_loop_directory file rest dc errs Hs D).
        destruct (IH dc errs w) as (dc' & more & w' & Hrun & Hcount).
        exists dc', more, w'. split; [assumption|].
        unfold attempted in *. simpl. rewrite Hskip, Hs, D. simpl. lia.
      * destruct (unlinkSync_cases p w)
          as [[e He]|(nd & Hp & Hnd & Hfile & _ & Hu)].
        -- rewrite (clear_loop_unlink_throws file rest dc errs Hs D He).
           destruct (IH dc (errs ++ [error_line file (errorMessage e)])%list w)
             as (dc' & more & w' & Hrun & Hcount).
           exists dc', (error_line file (errorMessage e) :: more), w'.
           rewrite Hrun, <- app_assoc. split; [reflexivity|].
           unfold attempted in *. simpl. rewrite Hskip, Hs, D. simpl. lia.
        -- rewrite (clear_loop_unlinked file rest dc errs Hs D Hu).
           destruct (IH (S dc) errs (without w p))
             as (dc' & more & w' & Hrun & Hcount).
           exists dc', more, w'. split; [assumption|].
           rewrite (attempted_without w rest Hp Hnd Hfile) in Hcount.
           unfold attempted in *. simpl. rewrite Hskip, Hs, D. simpl. lia.
Qed.

End Aggregate.

(* ================================================================== *)
(** ** The loop over a well-formed listing *)

Section Listing.

Lemma distinct_NoDup names : distinct names = true -> NoDup names.
Proof.
  induction names as [|n rest IH]; simpl; intros H; constructor.
  - apply andb_prop in H as [H _]. apply negb_true_iff in H.
    intros Hin. apply Bool.not_true_iff_false in H. apply H.
    apply existsb_exists. exists n. split; [assumption|apply String.eqb_refl].
  - apply IH. now apply andb_prop in H as [_ H].
Qed.

Lemma find_entry_fresh name es :
  ~ In name (List.map fst es) -> find_entry name es = None.
Proof.
  induction es as [|[n nd] es IH]; simpl; intros H; auto.
  destruct (n =? name) eqn:E.
  - apply String.eqb_eq in E. tauto.
  - apply IH. tauto.
Qed.

Lemma find_entry_middle name nd pre suf :
  ~ In name (List.map fst pre) ->
  find_entry name (pre ++ (name, nd) :: suf) = Some nd.
Proof.
  induction pre as [|[n x] pre IH]; simpl; intros H.
  - now rewrite String.eqb_refl.
  - destruct (n =? name) eqn:E.
    + apply String.eqb_eq in E. tauto.
    + apply IH. tauto.
Qed.

Lemma remove_entry_fresh name es :
  ~ In name (List.map fst es) -> remove_entry name es = es.
Proof.
  induction es as [|[n nd] es IH]; simpl; intros H; auto.
  destruct (n =? name) eqn:E; simpl.
  - apply String.eqb_eq in E. tauto.
  - f_equal. apply IH. tauto.
Qed.

Lemma remove_entry_middle name nd pre suf :
  NoDup (List.map fst (pre ++ (name, nd) :: suf)) ->
  remove_entry name (pre ++ (name, nd) :: suf) = (pre ++ suf)%list.
Proof.
  intros H. rewrite map_app in H. simpl in H.
  pose proof (NoDup_remove_2 _ _ _ H) as Hfresh.
  unfold remove_entry. rewrite filter_app. simpl.
  rewrite String.eqb_refl. simpl.
  fold (remove_entry name pre). fold (remove_entry name suf).
  rewrite !remove_entry_fresh; auto.
  - intros Hin. apply Hfresh. apply in_or_app. now right.
  - intros Hin. apply Hfresh. apply in_or_app. now left.
Qed.

Lemma with_entries_twice w es es' :
  with_entries (with_entries w es) es' = with_entries w es'.
Proof. unfold with_entries. destruct (uploads w) eqn:U; simpl; now rewrite ?U. Qed.

Lemma with_entries_same w d :
  uploads w = Some d -> with_entries w (entries d) = w.
Proof.
  unfold with_entries. intros U. rewrite U. destruct w, d. simpl in *.
  congruence.
Qed.

Lemma uploads_with_entries w d es :
  uploads w = Some d ->
  uploads (with_entries w es)
  = Some {| readdir_fault := readdir_fault d; entries := es |}.
Proof. unfold with_entries. intros U. now rewrite U. Qed.

Lemma node_at_listed w d name nd pre suf :
  uploads w = Some d ->
  ~ In name (List.map fst pre) ->
  node_at (with_entries w (pre ++ (name, nd) :: suf)) (Entry name) = Some nd.
Proof.
  intros U H. simpl. erewrite uploads_with_entries by eassumption. simpl.
  now apply find_entry_middle.
Qed.

Lemma without_listed w d name nd pre suf :
  uploads w = Some d ->
  NoDup (List.map fst (pre ++ (name, nd) :: suf)) ->
  without (with_entries w (pre ++ (name, nd) :: suf)) (Entry name)
  = with_entries w (pre ++ suf).
Proof.
  intros U H. simpl. erewrite uploads_with_entries by eassumption. simpl.
  rewrite with_entries_twice. now rewrite remove_entry_middle.
Qed.

Lemma fresh_in_prefix (name : string) (nd : node) pre suf :
  NoDup (List.map fst (pre ++ (name, nd) :: suf)) ->
  ~ In name (List.map fst pre).
Proof.
  intros H. rewrite map_app in H. simpl in H.
  pose proof (NoDup_remove_2 _ _ _ H) as Hfresh.
  intros Hin. apply Hfresh. apply in_or_app. now left.
Qed.

Lemma deleted_cons e es :
  deleted (e :: es) = if is_deleted e then e :: deleted es else deleted es.
Proof. reflexivity. Qed.

Lemma survivors_cons e es :
  survivors (e :: es)
  = if is_deleted e then survivors es else e :: survivors es.
Proof. unfold survivors. simpl. now destruct (is_deleted e). Qed.

Lemma failures_cons e es :
  failures (e :: es)
  = (match fate_of e with
     | Failed message => [error_line (fst e) message]
     | _ => []
     end ++ failures es)%list.
Proof. reflexivity. Qed.

Lemma filter_clearable_cons name names :
  filter clearable (name :: names)
  = if clearable name then name :: filter clearable names
    else filter clearable names.
Proof. reflexivity. Qed.

Lemma app_cons_assoc (A : Type) (pre : list A) (x : A) (rest : list A) :
  (pre ++ x :: rest = (pre ++ [x]) ++ rest)%list.
Proof. now rewrite <- app_assoc. Qed.

(** Over a well-formed listing the loop deletes exactly the entries whose
    fate is [Deleted], reports exactly those whose fate is [Failed], in
    listing order, and leaves every other entry in place. *)
Lemma clear_loop_fates suf :
  forall pre dc errs w d,
    uploads w = Some d ->
    NoDup (List.map fst (pre ++ suf)) ->
    forallb entry_name (List.map fst suf) = true ->
    clear_loop (filter clearable (List.map fst suf)) dc errs
               (with_entries w (pre ++ suf))
    = (Returned ((dc + length (deleted suf))%nat, (errs ++ failures suf)%list),
       with_entries w (pre ++ survivors suf)).
Proof.
  induction suf as [|[name nd] suf IH]; intros pre dc errs w d U Hnd Hnames.
  - cbn. rewrite Nat.add_0_r, !app_nil_r. reflexivity.
  - cbn [List.map fst forallb] in Hnames.
    apply andb_prop in Hnames as [Hname Hnames].
    assert (Hnd' : NoDup (List.map fst ((pre ++ [(name, nd)]) ++ suf)))
      by now rewrite <- app_cons_assoc.
    pose proof (@fresh_in_prefix name nd pre suf Hnd) as Hfresh.
    pose proof (IH (pre ++ [(name, nd)])%list) as IHkeep.
    rewrite deleted_cons, survivors_cons, failures_cons.
    cbn [List.map fst]. rewrite filter_clearable_cons.
    unfold is_deleted. unfold fate_of at 1 2 3.
    destruct (clearable name) eqn:C.
    + assert (Hp : path_join uploadsDir name = Entry name)
        by (cbn; now rewrite Hname).
      pose proof (@node_at_listed w d name nd pre suf U Hfresh) as Hat.
      remember (with_entries w (pre ++ (name, nd) :: suf)) as w1 eqn:Hw1.
      assert (Hstat : statSync (path_join uploadsDir name) w1
                      = match stat_fault nd with
                        | Some message => (Threw (Error message), w1)
                        | None => (Returned (stats_of nd), w1)
                        end).
      { rewrite Hp, statSync_node by discriminate. now rewrite Hat. }
      destruct (stat_fault nd) as [m|] eqn:SF.
      * rewrite (@clear_loop_stat_throws name _ dc errs w1 _ Hstat).
        subst w1. rewrite (app_cons_assoc pre (name, nd) suf),
          (app_cons_assoc pre (name, nd) (survivors suf)).
        rewrite (IHkeep dc _ w d U Hnd' Hnames).
        cbn [errorMessage app]. now rewrite <- app_assoc.
      * destruct (is_dir nd) eqn:D.
        -- rewrite (@clear_loop_directory name _ dc errs w1 _ Hstat D).
           subst w1. rewrite (app_cons_assoc pre (name, nd) suf),
          (app_cons_assoc pre (name, nd) (survivors suf)).
           now rewrite (IHkeep dc _ w d U Hnd' Hnames).
        -- assert (Hunlink : unlinkSync (path_join uploadsDir name) w1
                      = match unlink_fault nd with
                        | Some message => (Threw (Error message), w1)
                        | None => (Returned tt, without w1 (Entry name))
                        end).
           { rewrite Hp. unfold unlinkSync. rewrite Hat.
             destruct (unlink_fault nd); auto. now rewrite D. }
           destruct (unlink_fault nd) as [m|] eqn:UF.
           ++ rewrite (@clear_loop_unlink_throws name _ dc errs w1 _ _ Hstat D Hunlink).
              subst w1. rewrite (app_cons_assoc pre (name, nd) suf),
          (app_cons_assoc pre (name, nd) (survivors suf)).
              rewrite (IHkeep dc _ w d U Hnd' Hnames).
              cbn [errorMessage app]. now rewrite <- app_assoc.
           ++ rewrite (@clear_loop_unlinked name _ dc errs w1 _ _ Hstat D Hunlink).
              subst w1. rewrite (@without_listed w d name nd pre suf U Hnd).
              assert (Hnd'' : NoDup (List.map fst (pre ++ suf))).
              { rewrite map_app in *. cbn [List.map fst] in Hnd.
                now apply NoDup_remove_1 in Hnd. }
              rewrite (IH pre (S dc) errs w d U Hnd'' Hnames).
              cbn [length app]. now rewrite Nat.add_succ_r.
    + rewrite (app_cons_assoc pre (name, nd) suf),
          (app_cons_assoc pre (name, nd) (survivors suf)).
      now rewrite (IHkeep dc errs w d U Hnd' Hnames).
Qed.

End Listing.

(* ================================================================== *)
(** ** The clear-cache route *)

Section ClearCache.

Lemma files_clear_cache_no_root w :
  uploads w = None ->
  files_clear_cache w
  = (Returned (res_json 200 (JObj [("message", JStr "No cache to clear")])), w).
Proof.
  intros U. unfold files_clear_cache, IO.try_catch, IO.bind, existsSync.
  cbn. now rewrite U.
Qed.

Lemma files_clear_cache_listing_throws w d message :
  uploads w = Some d -> readdir_fault d = Some message ->
  files_clear_cache w
  = (Returned (res_json 500 (JObj [
       ("error", JStr ("Failed to clear cache: " ++ message))])), w).
Proof.
  intros U R.
  unfold files_clear_cache, IO.try_catch, IO.bind at 1.
  unfold existsSync. cbn [uploadsDir]. rewrite U. cbn [negb].
  unfold IO.bind at 1. unfold readdirSync. now rewrite U, R.
Qed.

Lemma files_clear_cache_loop w d count lines w' :
  uploads w = Some d -> readdir_fault d = None ->
  clear_loop (filter clearable (List.map fst (entries d))) 0 [] w
  = (Returned (count, lines), w') ->
  files_clear_cache w = (Returned (clear_reply count lines), w').
Proof.
  intros U R L.
  unfold files_clear_cache, IO.try_catch, IO.bind at 1.
  unfold existsSync. cbn [uploadsDir]. rewrite U. cbn [negb].
  unfold IO.bind at 1. unfold readdirSync, uploadsDir. rewrite U, R.
  cbv beta iota zeta. unfold IO.bind, IO.ret. now rewrite L.
Qed.

(** What [result_of] reads off the replies after the loop. *)
Lemma result_of_clear_reply count lines :
  result_of (clear_reply count lines)
  = Some {| deletedCount := count; errors := List.map JStr lines |}.
Proof.
  unfold clear_reply.
  destruct lines as [|e lines]; cbn; now rewrite Nat2Z.id.
Qed.

(** A name whose [statSync] throws still throws after the loop has dealt
    with another name. *)
Lemma stat_throws_after_unlink w p nd file e :
  p <> Uploads -> node_at w p = Some nd -> stat_fault nd = None ->
  statSync (path_join uploadsDir file) w = (Threw e, w) ->
  statSync (path_join uploadsDir file) (without w p)
  = (Threw e, without w p).
Proof.
  intros Hp Hnd Hok Hthrow.
  pose proof (path_join_uploads_not_root file) as Hq.
  rewrite statSync_node in Hthrow by assumption.
  rewrite statSync_node by assumption.
  destruct (path_eq_dec p (path_join uploadsDir file)) as [Heq|Hne].
  - rewrite <- Heq, Hnd, Hok in Hthrow. discriminate.
  - rewrite node_at_without_other by assumption.
    destruct (node_at w (path_join uploadsDir file)) as [n|];
      [destruct (stat_fault n)|]; congruence.
Qed.

Lemma statSync_returned_node p w stats :
  p <> Uploads -> statSync p w = (Returned stats, w) ->
  exists nd, node_at w p = Some nd /\ stat_fault nd = None.
Proof.
  intros Hp H. rewrite statSync_node in H by assumption.
  destruct (node_at w p) as [nd|]; [|discriminate].
  exists nd. destruct (stat_fault nd); [discriminate|auto].
Qed.

(** Every name of [files] whose [statSync] throws ends up in [errors]. *)
Lemma clear_loop_reports files :
  forall count lines w file e,
    In file files ->
    statSync (path_join uploadsDir file) w = (Threw e, w) ->
    exists count' lines' w',
      clear_loop files count lines w = (Returned (count', lines'), w')
      /\ In (error_line file (errorMessage e)) lines'.
Proof.
  induction files as [|f rest IH]; intros count lines w file e Hin Hthrow.
  - destruct Hin.
  - destruct (string_dec f file) as [->|Hne].
    + rewrite (@clear_loop_stat_throws file rest count lines w e Hthrow).
      destruct (clear_loop_accounts rest count
                  (lines ++ [error_line file (errorMessage e)])%list w)
        as (count' & more & w' & Hrun & _).
      exists count', ((lines ++ [error_line file (errorMessage e)]) ++ more)%list, w'.
      split; [assumption|].
      apply in_or_app. left. apply in_or_app. right. now left.
    + assert (Hin' : In file rest) by (destruct Hin; [contradiction|assumption]).
      set (p := path_join uploadsDir f).
      destruct (statSync_cases p w) as [[e' He]|[stats Hs]].
      * rewrite (@clear_loop_stat_throws f rest count lines w e' He).
        now apply IH.
      * destruct (isDirectory stats) eqn:D.
        -- rewrite (@clear_loop_directory f rest count lines w stats Hs D).
           now apply IH.
        -- destruct (unlinkSync_cases p w)
             as [[e' He]|(nd & Hp & Hnd & _ & _ & Hu)].
           ++ rewrite (@clear_loop_unlink_throws f rest count lines w stats e' Hs D He).
              now apply IH.
           ++ rewrite (@clear_loop_unlinked f rest count lines w stats _ Hs D Hu).
              apply IH; [assumption|].
              destruct (statSync_returned_node Hp Hs) as (nd' & Hnd' & Hok).
              now apply (@stat_throws_after_unlink w p nd').
Qed.

End ClearCache.

(* ================================================================== *)
(** ** Properties of the clear-cache route *)

(** C4.  When the uploads directory does not exist, the clear-cache
    route answers 200 with the message that there is no cache to clear
    and touches nothing: read as a [ClearCacheResult] the reply carries
    zero deletions and no errors, it is not an error reply, and a second
    call right after the first gives the same reply on the same disk. *)
Theorem clear_cache_without_root w :
  uploads w = None ->
  files_clear_cache w
  = (Returned (res_json 200 (JObj [("message", JStr "No cache to clear")])), w)
  /\ result_of (res_json 200 (JObj [("message", JStr "No cache to clear")]))
     = Some {| deletedCount := 0; errors := [] |}
  /\ files_clear_cache (snd (files_clear_cache w)) = files_clear_cache w.
Proof.
  intros U. rewrite (files_clear_cache_no_root w U). cbn [snd].
  rewrite (files_clear_cache_no_root w U). repeat split.
Qed.

Lemma clear_cache_without_root_witness :
  files_clear_cache bare_disk
  = (Returned (res_json 200 (JObj [("message", JStr "No cache to clear")])),
     bare_disk)
  /\ result_of (res_json 200 (JObj [("message", JStr "No cache to clear")]))
     = Some {| deletedCount := 0; errors := [] |}
  /\ files_clear_cache (snd (files_clear_cache bare_disk))
     = files_clear_cache bare_disk.
Proof. apply (clear_cache_without_root bare_disk). reflexivity. Defined.

(** C8.  When the uploads directory exists but listing it throws, the
    clear-cache route answers one 500 reply carrying the message of the
    thrown error, with no deletedCount / errors aggregate and the disk
    untouched; the per-item loop, by contrast, never throws whatever the
    disk does. *)
Theorem clear_cache_listing_failure_is_fatal w d message :
  uploads w = Some d -> readdir_fault d = Some message ->
  files_clear_cache w
  = (Returned (res_json 500 (JObj [
       ("error", JStr ("Failed to clear cache: " ++ message))])), w)
  /\ result_of (res_json 500 (JObj [
       ("error", JStr ("Failed to clear cache: " ++ message))])) = None
  /\ (forall files count lines w0,
        exists acc w1,
          clear_loop files count lines w0 = (Returned acc, w1)).
Proof.
  intros U R. split; [now apply (@files_clear_cache_listing_throws w d)|].
  split; [reflexivity|].
  intros files count lines w0.
  destruct (clear_loop_accounts files count lines w0)
    as (count' & more & w1 & Hrun & _).
  now exists (count', (lines ++ more)%list), w1.
Qed.

Lemma clear_cache_listing_failure_is_fatal_witness :
  files_clear_cache unlistable_disk
  = (Returned (res_json 500 (JObj [
       ("error", JStr ("Failed to clear cache: "
                       ++ "EACCES: permission denied, scandir 'uploads'"))])),
     unlistable_disk)
  /\ result_of (res_json 500 (JObj [
       ("error", JStr ("Failed to clear cache: "
                       ++ "EACCES: permission denied, scandir 'uploads'"))]))
     = None
  /\ (forall files count lines w0,
        exists acc w1,
          clear_loop files count lines w0 = (Returned acc, w1)).
Proof.
  apply (@clear_cache_listing_failure_is_fatal unlistable_disk
           {| readdir_fault :=
                Some "EACCES: permission denied, scandir 'uploads'";
              entries := [("a.txt", file_node 10)] |}
           "EACCES: permission denied, scandir 'uploads'");
    reflexivity.
Defined.

(** C2 (as amended).  Whenever the clear-cache route reaches the
    per-item loop, the loop returns, the route answers with the count and
    the error lines the loop built, and [deletedCount + errors.length] is
    the number of names that passed the filter of line 142 and that
    [statSync] did not report as a directory.  A name whose [statSync]
    throws is among those, whatever the object behind it is. *)
Theorem clear_cache_accounts_for_attempted w d :
  uploads w = Some d -> readdir_fault d = None ->
  exists count lines w',
    clear_loop (filter clearable (List.map fst (entries d))) 0 [] w
    = (Returned (count, lines), w')
    /\ files_clear_cache w = (Returned (clear_reply count lines), w')
    /\ result_of (clear_reply count lines)
       = Some {| deletedCount := count; errors := List.map JStr lines |}
    /\ (count + length lines
        = length (attempted w
                    (filter clearable (List.map fst (entries d)))))%nat.
Proof.
  intros U R.
  destruct (clear_loop_accounts
              (filter clearable (List.map fst (entries d))) 0 [] w)
    as (count & more & w' & Hrun & Hcount).
  exists count, more, w'. cbn [app] in Hrun.
  split; [assumption|].
  split; [now apply (@files_clear_cache_loop w d)|].
  split; [apply result_of_clear_reply|].
  now rewrite Hcount.
Qed.

Lemma clear_cache_accounts_for_attempted_witness :
  exists count lines w',
    clear_loop
      (filter clearable
         (List.map fst [("x", file_node 1); ("y", locked_node);
                        ("z", file_node 2)])) 0 [] xyz_disk
    = (Returned (count, lines), w')
    /\ files_clear_cache xyz_disk = (Returned (clear_reply count lines), w')
    /\ result_of (clear_reply count lines)
       = Some {| deletedCount := count; errors := List.map JStr lines |}
    /\ (count + length lines
        = length (attempted xyz_disk
                    (filter clearable
                       (List.map fst [("x", file_node 1); ("y", locked_node);
                                      ("z", file_node 2)]))))%nat.
Proof.
  apply (@clear_cache_accounts_for_attempted xyz_disk
           {| readdir_fault := None;
              entries := [("x", file_node 1); ("y", locked_node);
                          ("z", file_node 2)] |});
    reflexivity.
Defined.

(** C2 (as stated) fails on a subdirectory that cannot be examined: the
    listing holds no eligible item in the sense of section 3, yet the run
    ends with one error and [deletedCount + errors.length] is 1. *)
Lemma clear_cache_counts_unexaminable_directory :
  files_clear_cache opaque_disk
  = (Returned (res_json 207 (JObj [
       ("message", JStr "Cache partially cleared. 0 files deleted, 1 errors.");
       ("deletedCount", JNum 0);
       ("errors",
        JArr [JStr "sub: EACCES: permission denied, stat 'uploads/sub'"])])),
     opaque_disk)
  /\ eligible [("sub", opaque_dir_node)] = []
  /\ (0 + length ["sub: EACCES: permission denied, stat 'uploads/sub'"]
      =? length (eligible [("sub", opaque_dir_node)]))%nat = false.
Proof. repeat split. Qed.

(** C10.  In the per-item loop a name whose [statSync] throws is pushed
    on [errors] as [name: message] and the loop goes on with the next
    name, counter and disk unchanged; this does not depend on whether the
    object is a file or a directory.  In a run of the route every such
    name of the filtered listing is among the reported error lines. *)
Theorem clear_cache_stat_failure_is_an_error w file nd message :
  entry_name file = true ->
  node_at w (Entry file) = Some nd ->
  stat_fault nd = Some message ->
  (forall rest count lines,
      clear_loop (file :: rest) count lines w
      = clear_loop rest count (lines ++ [error_line file message])%list w)
  /\ (forall files count lines,
        In file files ->
        exists count' lines' w',
          clear_loop files count lines w = (Returned (count', lines'), w')
          /\ In (error_line file message) lines')
  /\ (forall d,
        uploads w = Some d -> readdir_fault d = None ->
        In file (filter clearable (List.map fst (entries d))) ->
        exists count lines w',
          files_clear_cache w = (Returned (clear_reply count lines), w')
          /\ In (error_line file message) lines).
Proof.
  intros Hname Hnd Hfault.
  assert (Hthrow : statSync (path_join uploadsDir file) w
                   = (Threw (Error message), w)).
  { rewrite statSync_node by apply path_join_uploads_not_root.
    cbn [path_join uploadsDir]. rewrite Hname, Hnd, Hfault. reflexivity. }
  split; [|split].
  - intros rest count lines.
    apply (@clear_loop_stat_throws file rest count lines w _ Hthrow).
  - intros files count lines Hin.
    apply (@clear_loop_reports files count lines w file _ Hin Hthrow).
  - intros d U R Hin.
    destruct (@clear_loop_reports _ 0%nat [] w file _ Hin Hthrow)
      as (count & lines & w' & Hrun & Hline).
    exists count, lines, w'. split; [|assumption].
    now apply (@files_clear_cache_loop w d).
Qed.

Lemma clear_cache_stat_failure_is_an_error_witness :
  (forall rest count lines,
      clear_loop ("sub" :: rest) count lines opaque_disk
      = clear_loop rest count
          (lines ++ [error_line "sub"
                       "EACCES: permission denied, stat 'uploads/sub'"])%list
          opaque_disk)
  /\ (forall files count lines,
        In "sub" files ->
        exists count' lines' w',
          clear_loop files count lines opaque_disk
          = (Returned (count', lines'), w')
          /\ In (error_line "sub"
                   "EACCES: permission denied, stat 'uploads/sub'") lines')
  /\ (forall d,
        uploads opaque_disk = Some d -> readdir_fault d = None ->
        In "sub" (filter clearable (List.map fst (entries d))) ->
        exists count lines w',
          files_clear_cache opaque_disk
          = (Returned (clear_reply count lines), w')
          /\ In (error_line "sub"
                   "EACCES: permission denied, stat 'uploads/sub'") lines).
Proof.
  apply (@clear_cache_stat_failure_is_an_error opaque_disk "sub"
           opaque_dir_node "EACCES: permission denied, stat 'uploads/sub'");
    reflexivity.
Defined.

(* ================================================================== *)
(** ** Runs over a listing whose entries can all be examined *)

Section Examined.

Lemma listing_ok_NoDup (es : list (string * node)) :
  listing_ok es = true ->
  NoDup (List.map fst es) /\ forallb entry_name (List.map fst es) = true.
Proof.
  unfold listing_ok. intros H. apply andb_prop in H as [H1 H2].
  split; [now apply distinct_NoDup|assumption].
Qed.

(** The route over a well-formed listing, entry by entry. *)
Lemma files_clear_cache_fates w d :
  uploads w = Some d -> readdir_fault d = None ->
  NoDup (List.map fst (entries d)) ->
  forallb entry_name (List.map fst (entries d)) = true ->
  files_clear_cache w
  = (Returned (clear_reply (length (deleted (entries d)))
                           (failures (entries d))),
     with_entries w (survivors (entries d))).
Proof.
  intros U R Hnd Hnames.
  apply (@files_clear_cache_loop w d); try assumption.
  pose proof (@clear_loop_fates (entries d) [] 0%nat [] w d U Hnd Hnames) as H.
  cbn [app Nat.add] in H. now rewrite (with_entries_same w U) in H.
Qed.

(** When [statSync] succeeds on an entry, its fate is decided by its
    name, its kind and [unlinkSync]. *)
Lemma fate_of_readable e :
  readable e = true ->
  fate_of e
  = if clearable (fst e) && negb (is_dir (snd e))
    then match unlink_fault (snd e) with
         | Some message => Failed message
         | None => Deleted
         end
    else Kept.
Proof.
  destruct e as [name nd]. unfold readable, fate_of. cbn [fst snd].
  destruct (stat_fault nd); [discriminate|]. intros _.
  destruct (clearable name), (is_dir nd); reflexivity.
Qed.

Lemma filter_filter (A : Type) (f g : A -> bool) (l : list A) :
  filter f (filter g l) = filter (fun x => g x && f x) l.
Proof.
  induction l as [|x l IH]; cbn [filter]; auto.
  destruct (g x); cbn [filter andb]; now rewrite IH.
Qed.

Lemma flat_map_filter (A B : Type) (f : A -> list B) (g : A -> bool) l :
  (forall x, In x l -> g x = false -> f x = []) ->
  flat_map f l = flat_map f (filter g l).
Proof.
  induction l as [|x l IH]; intros H; cbn [flat_map filter]; auto.
  rewrite IH by (intros; apply H; [now right|assumption]).
  destruct (g x) eqn:G; cbn [flat_map]; auto.
  now rewrite (H x (or_introl eq_refl) G).
Qed.

Lemma deleted_eligible es :
  forallb readable es = true ->
  deleted es = deleted (eligible es).
Proof.
  intros Hr. unfold deleted, eligible. rewrite filter_filter.
  apply filter_ext_in. intros e Hin.
  rewrite forallb_forall in Hr. unfold is_deleted.
  rewrite (fate_of_readable e (Hr e Hin)).
  destruct (clearable (fst e) && negb (is_dir (snd e))); reflexivity.
Qed.

Lemma failures_eligible es :
  forallb readable es = true ->
  failures es = failures (eligible es).
Proof.
  intros Hr. unfold failures, eligible. apply flat_map_filter.
  intros e Hin Hne. rewrite forallb_forall in Hr.
  rewrite (fate_of_readable e (Hr e Hin)). now rewrite Hne.
Qed.

Lemma eligible_member es e :
  forallb readable es = true -> In e (eligible es) ->
  fate_of e = match unlink_fault (snd e) with
              | Some message => Failed message
              | None => Deleted
              end.
Proof.
  intros Hr Hin. unfold eligible in Hin. apply filter_In in Hin as [Hin He].
  rewrite forallb_forall in Hr.
  rewrite (fate_of_readable e (Hr e Hin)). now rewrite He.
Qed.

End Examined.

Section Eligible.

(** When the directories that pass the name filter can be examined, the
    fate of an entry is decided by its name, its kind and whether
    deleting it fails. *)
Lemma fate_of_examined e :
  negb (clearable (fst e) && is_dir (snd e)) || readable e = true ->
  fate_of e
  = if clearable (fst e) && negb (is_dir (snd e))
    then match failure_of (snd e) with
         | Some message => Failed message
         | None => Deleted
         end
    else Kept.
Proof.
  destruct e as [name nd]. unfold readable, fate_of, failure_of.
  cbn [fst snd].
  destruct (clearable name), (is_dir nd), (stat_fault nd);
    cbn; try reflexivity; discriminate.
Qed.

Variable es : list (string * node).
Hypothesis examinable : directories_examinable es = true.

Lemma examined_member e :
  In e es -> negb (clearable (fst e) && is_dir (snd e)) || readable e = true.
Proof.
  intros Hin. unfold directories_examinable in examinable.
  rewrite forallb_forall in examinable. now apply examinable.
Qed.

Lemma deleted_of_eligible : deleted es = deleted (eligible es).
Proof.
  unfold deleted, eligible. rewrite filter_filter.
  apply filter_ext_in. intros e Hin. unfold is_deleted.
  rewrite (fate_of_examined e (examined_member e Hin)).
  destruct (clearable (fst e) && negb (is_dir (snd e))); reflexivity.
Qed.

Lemma failures_of_eligible : failures es = failures (eligible es).
Proof.
  unfold failures, eligible. apply flat_map_filter.
  intros e Hin Hne.
  rewrite (fate_of_examined e (examined_member e Hin)). now rewrite Hne.
Qed.

Lemma eligible_fate e :
  In e (eligible es) ->
  fate_of e = match failure_of (snd e) with
              | Some message => Failed message
              | None => Deleted
              end.
Proof.
  intros Hin. unfold eligible in Hin. apply filter_In in Hin as [Hin He].
  rewrite (fate_of_examined e (examined_member e Hin)). now rewrite He.
Qed.

End Eligible.

(** C1 (as amended).  In a well-formed listing in which every directory
    that passes the name filter can be examined, let the eligible items
    (not hidden, not [test], not a directory) be [x, y, z] in listing
    order, where deleting [y] fails ([statSync] or [unlinkSync] throws
    [message]) and deleting [x] and [z] succeeds.  Then the route does
    not stop at [y]: it answers 207 with [deletedCount] 2 and an [errors]
    array that holds the one string [y: message]; [x] and [z] are gone
    from the disk and every other entry is still there. *)
Theorem clear_cache_partial_tolerance w d ex ey ez message :
  uploads w = Some d -> readdir_fault d = None ->
  listing_ok (entries d) = true ->
  directories_examinable (entries d) = true ->
  eligible (entries d) = [ex; ey; ez] ->
  failure_of (snd ex) = None ->
  failure_of (snd ey) = Some message ->
  failure_of (snd ez) = None ->
  files_clear_cache w
  = (Returned (res_json 207 (JObj [
       ("message", JStr "Cache partially cleared. 2 files deleted, 1 errors.");
       ("deletedCount", JNum 2);
       ("errors", JArr [JStr (fst ey ++ ": " ++ message)])])),
     with_entries w (survivors (entries d)))
  /\ deleted (entries d) = [ex; ez]
  /\ In ey (survivors (entries d)).
Proof.
  intros U R Hok Hr He Hx Hy Hz.
  assert (Fx : fate_of ex = Deleted).
  { rewrite (@eligible_fate (entries d) Hr ex), Hx; auto.
    rewrite He. now left. }
  assert (Fy : fate_of ey = Failed message).
  { rewrite (@eligible_fate (entries d) Hr ey), Hy; auto.
    rewrite He. right. now left. }
  assert (Fz : fate_of ez = Deleted).
  { rewrite (@eligible_fate (entries d) Hr ez), Hz; auto.
    rewrite He. right. right. now left. }
  assert (Hd : deleted (entries d) = [ex; ez]).
  { rewrite (deleted_of_eligible _ Hr), He. unfold deleted, is_deleted.
    cbn [filter]. now rewrite Fx, Fy, Fz. }
  assert (Hf : failures (entries d) = [error_line (fst ey) message]).
  { rewrite (failures_of_eligible _ Hr), He. unfold failures.
    cbn [flat_map]. now rewrite Fx, Fy, Fz. }
  split; [|split].
  - destruct (listing_ok_NoDup _ Hok) as [Hnd Hnames].
    rewrite (@files_clear_cache_fates w d U R Hnd Hnames), Hd, Hf.
    reflexivity.
  - assumption.
  - unfold survivors. apply filter_In. split.
    + assert (Hin : In ey (eligible (entries d))) by (rewrite He; right; now left).
      unfold eligible in Hin. now apply filter_In in Hin.
    + unfold is_deleted. now rewrite Fy.
Qed.

Lemma clear_cache_partial_tolerance_witness :
  files_clear_cache mixed_disk
  = (Returned (res_json 207 (JObj [
       ("message", JStr "Cache partially cleared. 2 files deleted, 1 errors.");
       ("deletedCount", JNum 2);
       ("errors",
        JArr [JStr (fst ("y", unexaminable_node) ++ ": "
                    ++ "EACCES: permission denied, stat 'uploads/y'")])])),
     with_entries mixed_disk
       (survivors [(".cache", opaque_dir_node); ("x", file_node 1);
                   ("sub", dir_node); ("y", unexaminable_node);
                   ("test", opaque_dir_node); ("z", file_node 2)]))
  /\ deleted [(".cache", opaque_dir_node); ("x", file_node 1);
              ("sub", dir_node); ("y", unexaminable_node);
              ("test", opaque_dir_node); ("z", file_node 2)]
     = [("x", file_node 1); ("z", file_node 2)]
  /\ In ("y", unexaminable_node)
       (survivors [(".cache", opaque_dir_node); ("x", file_node 1);
                   ("sub", dir_node); ("y", unexaminable_node);
                   ("test", opaque_dir_node); ("z", file_node 2)]).
Proof.
  apply (@clear_cache_partial_tolerance mixed_disk
           {| readdir_fault := None;
              entries := [(".cache", opaque_dir_node); ("x", file_node 1);
                          ("sub", dir_node); ("y", unexaminable_node);
                          ("test", opaque_dir_node); ("z", file_node 2)] |}
           ("x", file_node 1) ("y", unexaminable_node) ("z", file_node 2)
           "EACCES: permission denied, stat 'uploads/y'");
    reflexivity.
Defined.

(** C1 (as stated) fails on the shape of the error entries: with three
    files of which the second cannot be unlinked, the reply carries
    [deletedCount] 2 and one error, but that error is a string, and no
    element of [errors] is an [{itemName, message}] record naming [y]. *)
Lemma clear_cache_errors_are_strings :
  files_clear_cache xyz_disk
  = (Returned (res_json 207 (JObj [
       ("message", JStr "Cache partially cleared. 2 files deleted, 1 errors.");
       ("deletedCount", JNum 2);
       ("errors",
        JArr [JStr "y: EPERM: operation not permitted, unlink 'uploads/y'"])])),
     disk [("y", locked_node)])
  /\ option_map errors
       (result_of (res_json 207 (JObj [
          ("message",
           JStr "Cache partially cleared. 2 files deleted, 1 errors.");
          ("deletedCount", JNum 2);
          ("errors",
           JArr [JStr "y: EPERM: operation not permitted, unlink 'uploads/y'"])])))
     = Some [JStr "y: EPERM: operation not permitted, unlink 'uploads/y'"]
  /\ existsb (names_item "y")
       [JStr "y: EPERM: operation not permitted, unlink 'uploads/y'"]
     = false.
Proof. repeat split. Qed.

(* ================================================================== *)
(** ** The scenario of section 8, in any listing order *)

Section Scenario.

Lemma Permutation_filter (A : Type) (f : A -> bool) (l l' : list A) :
  Permutation l l' -> Permutation (filter f l) (filter f l').
Proof.
  induction 1 as [|x l l' _ IH|x y l|l l' l'' _ IH1 _ IH2]; cbn [filter].
  - constructor.
  - destruct (f x); [now constructor|assumption].
  - destruct (f x), (f y); try apply Permutation_refl. apply perm_swap.
  - now transitivity (filter f l').
Qed.

Lemma flat_map_nil (A B : Type) (f : A -> list B) (l : list A) :
  (forall x, In x l -> f x = []) -> flat_map f l = [].
Proof.
  induction l as [|x l IH]; intros H; cbn [flat_map]; auto.
  rewrite (H x (or_introl eq_refl)), IH; auto.
  intros y Hy. apply H. now right.
Qed.

Variables a g t sub : node.
Hypothesis a_is_file : is_dir a = false.
Hypothesis a_examinable : stat_fault a = None.
Hypothesis a_removable : unlink_fault a = None.
Hypothesis sub_is_dir : is_dir sub = true.
Hypothesis sub_examinable : stat_fault sub = None.

Lemma scenario_fates e :
  In e (scenario a g t sub) -> fate_of e = if fst e =? "a.txt" then Deleted else Kept.
Proof.
  intros [<-|[<-|[<-|[<-|[]]]]]; unfold fate_of; cbn.
  - now rewrite a_examinable, a_is_file, a_removable.
  - reflexivity.
  - reflexivity.
  - now rewrite sub_examinable, sub_is_dir.
Qed.

Lemma scenario_run w d :
  uploads w = Some d -> readdir_fault d = None ->
  Permutation (entries d) (scenario a g t sub) ->
  files_clear_cache w
  = (Returned (res_json 200 (JObj [
       ("message", JStr "Cache cleared successfully");
       ("deletedCount", JNum 1)])),
     with_entries w (remove_entry "a.txt" (entries d)))
  /\ Permutation (remove_entry "a.txt" (entries d))
       [(".git", g); ("test", t); ("sub", sub)].
Proof.
  intros U R P.
  assert (Hfate : forall e, In e (entries d) ->
                   fate_of e = if fst e =? "a.txt" then Deleted else Kept).
  { intros e Hin. apply scenario_fates. now apply (Permutation_in e P). }
  assert (Hnd : NoDup (List.map fst (entries d))).
  { apply (Permutation_NoDup (l := List.map fst (scenario a g t sub))).
    - apply Permutation_map. now symmetry.
    - apply distinct_NoDup. reflexivity. }
  assert (Hnames : forallb entry_name (List.map fst (entries d)) = true).
  { apply forallb_forall. intros n Hn.
    apply (Permutation_in n (Permutation_map fst P)) in Hn.
    destruct Hn as [<-|[<-|[<-|[<-|[]]]]]; reflexivity. }
  assert (Hdel : deleted (entries d) = filter (fun e => fst e =? "a.txt") (entries d)).
  { unfold deleted. apply filter_ext_in. intros e Hin. unfold is_deleted.
    rewrite (Hfate e Hin). now destruct (fst e =? "a.txt"). }
  assert (Hsur : survivors (entries d) = remove_entry "a.txt" (entries d)).
  { unfold survivors, remove_entry. apply filter_ext_in. intros e Hin.
    unfold is_deleted. rewrite (Hfate e Hin).
    now destruct (fst e =? "a.txt"). }
  assert (Hfail : failures (entries d) = []).
  { unfold failures. apply flat_map_nil. intros e Hin.
    rewrite (Hfate e Hin). now destruct (fst e =? "a.txt"). }
  assert (Hcount : length (deleted (entries d)) = 1%nat).
  { rewrite Hdel.
    rewrite (Permutation_length
               (Permutation_filter (fun e => fst e =? "a.txt") P)).
    reflexivity. }
  split.
  - rewrite (@files_clear_cache_fates w d U R Hnd Hnames).
    now rewrite Hcount, Hfail, Hsur.
  - apply (Permutation_filter (fun e => negb (fst e =? "a.txt")) P).
Qed.

End Scenario.

(** C5.  For an uploads directory that holds exactly [a.txt] (a file that
    can be examined and unlinked), [.git], [test] and the directory [sub],
    in whatever order they are listed, the route answers 200 with
    [deletedCount] 1 and no errors; only [a.txt] leaves the disk, [.git]
    and [test] being dropped by the filter on names and [sub] by the
    directory check. *)
Theorem clear_cache_scenario w d a g t sub :
  uploads w = Some d -> readdir_fault d = None ->
  Permutation (entries d)
    [("a.txt", a); (".git", g); ("test", t); ("sub", sub)] ->
  is_dir a = false -> stat_fault a = None -> unlink_fault a = None ->
  is_dir sub = true -> stat_fault sub = None ->
  files_clear_cache w
  = (Returned (res_json 200 (JObj [
       ("message", JStr "Cache cleared successfully");
       ("deletedCount", JNum 1)])),
     with_entries w (remove_entry "a.txt" (entries d)))
  /\ result_of (res_json 200 (JObj [
       ("message", JStr "Cache cleared successfully");
       ("deletedCount", JNum 1)]))
     = Some {| deletedCount := 1; errors := [] |}
  /\ Permutation (remove_entry "a.txt" (entries d))
       [(".git", g); ("test", t); ("sub", sub)].
Proof.
  intros U R P A1 A2 A3 S1 S2.
  destruct (@scenario_run a g t sub A1 A2 A3 S1 S2 w d U R P) as [Hrun Hleft].
  repeat split; assumption.
Qed.

Lemma clear_cache_scenario_witness :
  files_clear_cache scenario_disk
  = (Returned (res_json 200 (JObj [
       ("message", JStr "Cache cleared successfully");
       ("deletedCount", JNum 1)])),
     with_entries scenario_disk
       (remove_entry "a.txt"
          [("a.txt", file_node 10); (".git", dir_node); ("test", dir_node);
           ("sub", dir_node)]))
  /\ result_of (res_json 200 (JObj [
       ("message", JStr "Cache cleared successfully");
       ("deletedCount", JNum 1)]))
     = Some {| deletedCount := 1; errors := [] |}
  /\ Permutation
       (remove_entry "a.txt"
          [("a.txt", file_node 10); (".git", dir_node); ("test", dir_node);
           ("sub", dir_node)])
       [(".git", dir_node); ("test", dir_node); ("sub", dir_node)].
Proof.
  apply (@clear_cache_scenario scenario_disk
           {| readdir_fault := None;
              entries := [("a.txt", file_node 10); (".git", dir_node);
                          ("test", dir_node); ("sub", dir_node)] |}
           (file_node 10) dir_node dir_node dir_node);
    reflexivity.
Defined.

(* ================================================================== *)
(** ** The list route *)

Section ListRoute.

Lemma find_entry_in es name nd :
  NoDup (List.map fst es) -> In (name, nd) es -> find_entry name es = Some nd.
Proof.
  induction es as [|[n x] es IH]; cbn [List.map fst find_entry]; intros Hnd Hin.
  - destruct Hin.
  - inversion Hnd as [|? ? Hfresh Hnd']; subst.
    destruct Hin as [Heq|Hin].
    + injection Heq as -> ->. now rewrite String.eqb_refl.
    + destruct (n =? name) eqn:E.
      * apply String.eqb_eq in E. subst n. exfalso. apply Hfresh.
        apply in_map_iff. now exists (name, nd).
      * now apply IH.
Qed.

Lemma describe_entry w d e :
  uploads w = Some d ->
  entry_name (fst e) = true ->
  find_entry (fst e) (entries d) = Some (snd e) ->
  readable e = true ->
  describe (fst e) w = (Returned (descriptor e), w).
Proof.
  intros U Hname Hfind Hread. unfold describe, IO.bind.
  rewrite statSync_node by apply path_join_uploads_not_root.
  cbn [path_join uploadsDir node_at]. rewrite Hname. cbn [node_at].
  rewrite U, Hfind. unfold readable in Hread.
  destruct (stat_fault (snd e)); [discriminate|]. reflexivity.
Qed.

Lemma describe_throws w d e message :
  uploads w = Some d ->
  entry_name (fst e) = true ->
  find_entry (fst e) (entries d) = Some (snd e) ->
  stat_fault (snd e) = Some message ->
  describe (fst e) w = (Threw (Error message), w).
Proof.
  intros U Hname Hfind Hfault. unfold describe, IO.bind.
  rewrite statSync_node by apply path_join_uploads_not_root.
  cbn [path_join uploadsDir node_at]. rewrite Hname. cbn [node_at].
  now rewrite U, Hfind, Hfault.
Qed.

Lemma describe_pure file w : snd (describe file w) = w.
Proof.
  unfold describe, IO.bind.
  pose proof (statSync_pure (path_join uploadsDir file) w) as H.
  destruct (statSync (path_join uploadsDir file) w) as [[st|e] w'];
    cbn in *; congruence.
Qed.

Lemma map_describe_entries w d l :
  uploads w = Some d ->
  (forall e, In e l ->
     entry_name (fst e) = true
     /\ find_entry (fst e) (entries d) = Some (snd e)
     /\ readable e = true) ->
  IO.map describe (List.map fst l) w = (Returned (List.map descriptor l), w).
Proof.
  intros U. induction l as [|e l IH]; intros H; cbn [List.map IO.map].
  - reflexivity.
  - destruct (H e (or_introl eq_refl)) as (Hn & Hf & Hr).
    unfold IO.bind at 1. rewrite (@describe_entry w d e U Hn Hf Hr).
    unfold IO.bind at 1. rewrite IH by (intros; apply H; now right).
    reflexivity.
Qed.

(** A throwing [statSync] anywhere in the listing makes the whole map
    throw, leaving the disk as it was. *)
Lemma map_describe_throws w names file e :
  In file names ->
  describe file w = (Threw e, w) ->
  exists e', IO.map describe names w = (Threw e', w).
Proof.
  induction names as [|n names IH]; intros Hin Hthrow; [destruct Hin|].
  cbn [IO.map]. unfold IO.bind at 1.
  pose proof (describe_pure n w) as Hpure.
  destruct (describe n w) as [[j|e1] w1] eqn:Hn; cbn in Hpure; subst w1.
  - destruct Hin as [->|Hin]; [congruence|].
    destruct (IH Hin Hthrow) as [e' He']. exists e'.
    unfold IO.bind. now rewrite He'.
  - now exists e1.
Qed.

Lemma visible_names es :
  filter (fun file => negb (startsWith file ".")) (List.map fst es)
  = List.map fst (filter visible es).
Proof. apply filter_map_swap. Qed.

Lemma files_list_run w d result :
  uploads w = Some d -> readdir_fault d = None ->
  IO.map describe
    (filter (fun file => negb (startsWith file ".")) (List.map fst (entries d))) w
  = (result, w) ->
  files_list w
  = (match result with
     | Returned files => Returned (res_json 200 (JArr files))
     | Threw _ =>
         Returned (res_json 500 (JObj [("error", JStr "Failed to list files")]))
     end, w).
Proof.
  intros U R H.
  unfold files_list, IO.try_catch, IO.bind at 1.
  unfold readdirSync, uploadsDir. rewrite U, R. cbv beta iota.
  unfold IO.bind at 1. rewrite H. now destruct result.
Qed.

(** The route over a well-formed listing whose visible entries can all
    be examined. *)
Lemma files_list_readable w d :
  uploads w = Some d -> readdir_fault d = None ->
  listing_ok (entries d) = true ->
  forallb readable (filter visible (entries d)) = true ->
  files_list w
  = (Returned (res_json 200
                 (JArr (List.map descriptor (filter visible (entries d))))), w).
Proof.
  intros U R Hok Hread. destruct (listing_ok_NoDup _ Hok) as [Hnd Hnames].
  rewrite (@files_list_run w d
             (Returned (List.map descriptor (filter visible (entries d))))
             U R); [reflexivity|].
  rewrite visible_names. apply (@map_describe_entries w d _ U).
  intros [name nd] Hin. rewrite forallb_forall in Hread, Hnames.
  pose proof (proj1 (filter_In _ _ _) Hin) as [Hin' _].
  repeat split.
  - apply Hnames. apply in_map_iff. now exists (name, nd).
  - now apply find_entry_in.
  - now apply Hread.
Qed.

Lemma descriptor_name e e' : descriptor e = descriptor e' -> fst e = fst e'.
Proof. unfold descriptor. now intros [= ->]. Qed.

End ListRoute.

(** C6.  Over a well-formed listing whose visible entries can be
    examined, the list route answers 200 with one descriptor (name, size,
    creation time) for each entry whose name does not start with a dot,
    in listing order, and with nothing else: an entry of the directory
    has a descriptor in the reply exactly when its name does not start
    with a dot. *)
Theorem list_returns_the_visible_entries w d :
  uploads w = Some d -> readdir_fault d = None ->
  listing_ok (entries d) = true ->
  forallb readable (filter visible (entries d)) = true ->
  files_list w
  = (Returned (res_json 200
                 (JArr (List.map descriptor (filter visible (entries d))))), w)
  /\ (forall e, In e (entries d) ->
        (In (descriptor e) (List.map descriptor (filter visible (entries d)))
         <-> startsWith (fst e) "." = false)).
Proof.
  intros U R Hok Hread. split; [now apply files_list_readable|].
  intros e Hin. split.
  - intros Hd. apply in_map_iff in Hd as (e' & Heq & Hin').
    apply filter_In in Hin' as [_ Hv]. unfold visible in Hv.
    rewrite <- (@descriptor_name e' e Heq). now apply negb_true_iff.
  - intros Hv. apply in_map. apply filter_In. split; [assumption|].
    unfold visible. now rewrite Hv.
Qed.

Lemma list_returns_the_visible_entries_witness :
  files_list hidden_disk
  = (Returned (res_json 200
       (JArr (List.map descriptor
                (filter visible
                   [("a.txt", file_node 10); (".hidden", file_node 5);
                    ("b.txt", file_node 20)])))), hidden_disk)
  /\ (forall e,
        In e [("a.txt", file_node 10); (".hidden", file_node 5);
              ("b.txt", file_node 20)] ->
        (In (descriptor e)
            (List.map descriptor
               (filter visible
                  [("a.txt", file_node 10); (".hidden", file_node 5);
                   ("b.txt", file_node 20)]))
         <-> startsWith (fst e) "." = false)).
Proof.
  apply (@list_returns_the_visible_entries hidden_disk
           {| readdir_fault := None;
              entries := [("a.txt", file_node 10); (".hidden", file_node 5);
                          ("b.txt", file_node 20)] |});
    reflexivity.
Defined.

(** The reply for the directory of property P2, written out. *)
Example list_hidden_disk :
  files_list hidden_disk
  = (Returned (res_json 200 (JArr [
       JObj [("filename", JStr "a.txt"); ("size", JNum 10);
             ("createdAt", JDate 1700000000000)];
       JObj [("filename", JStr "b.txt"); ("size", JNum 20);
             ("createdAt", JDate 1700000000000)]])), hidden_disk).
Proof. reflexivity. Qed.

(** X4.  When [statSync] throws on a visible entry, directory or not, the
    list route answers 500. *)
Lemma list_stat_failure w d e :
  uploads w = Some d -> readdir_fault d = None ->
  listing_ok (entries d) = true ->
  In e (entries d) -> startsWith (fst e) "." = false ->
  readable e = false ->
  files_list w
  = (Returned (res_json 500 (JObj [("error", JStr "Failed to list files")])),
     w).
Proof.
  intros U R Hok Hin Hv Hread.
  destruct (listing_ok_NoDup _ Hok) as [Hnd Hnames].
  destruct e as [name nd]. unfold readable in Hread. cbn [fst snd] in *.
  destruct (stat_fault nd) as [message|] eqn:F; [|discriminate].
  rewrite forallb_forall in Hnames.
  assert (Hthrow : describe name w = (Threw (Error message), w)).
  { apply (@describe_throws w d (name, nd) message U); cbn [fst snd].
    - apply Hnames. apply in_map_iff. now exists (name, nd).
    - now apply find_entry_in.
    - assumption. }
  assert (Hlisted : In name (filter (fun file => negb (startsWith file "."))
                                (List.map fst (entries d)))).
  { apply filter_In. split.
    - apply in_map_iff. now exists (name, nd).
    - now rewrite Hv. }
  destruct (@map_describe_throws w _ name _ Hlisted Hthrow) as [e' He'].
  now rewrite (@files_list_run w d (Threw e') U R He').
Qed.

(** C9.  The list route has no directory check and no reserved name:
    over a well-formed listing whose visible entries can be examined,
    every entry whose name does not start with a dot, be it a directory
    or the entry [test], has its [{filename, size, createdAt}] descriptor,
    read off [statSync], in the 200 reply. *)
Theorem list_includes_directories w d e :
  uploads w = Some d -> readdir_fault d = None ->
  listing_ok (entries d) = true ->
  forallb readable (filter visible (entries d)) = true ->
  In e (entries d) -> startsWith (fst e) "." = false ->
  exists files,
    files_list w = (Returned (res_json 200 (JArr files)), w)
    /\ In (JObj [("filename", JStr (fst e));
                 ("size", JNum (size (snd e)));
                 ("createdAt", JDate (birthtime (snd e)))]) files
    /\ length files
       = length (filter (fun file => negb (startsWith file "."))
                   (List.map fst (entries d))).
Proof.
  intros U R Hok Hread Hin Hv.
  exists (List.map descriptor (filter visible (entries d))).
  split; [now apply files_list_readable|]. split.
  - change (In (descriptor e) (List.map descriptor (filter visible (entries d)))).
    apply in_map. apply filter_In. split; [assumption|].
    unfold visible. now rewrite Hv.
  - now rewrite visible_names, !length_map.
Qed.

Lemma list_includes_directories_witness :
  (exists files,
     files_list scenario_disk
     = (Returned (res_json 200 (JArr files)), scenario_disk)
     /\ In (JObj [("filename", JStr "sub"); ("size", JNum 4096);
                  ("createdAt", JDate 1700000000000)]) files
     /\ length files = 3%nat)
  /\ (exists files,
        files_list scenario_disk
        = (Returned (res_json 200 (JArr files)), scenario_disk)
        /\ In (JObj [("filename", JStr "test"); ("size", JNum 4096);
                     ("createdAt", JDate 1700000000000)]) files
        /\ length files = 3%nat).
Proof.
  split.
  - apply (@list_includes_directories scenario_disk
             {| readdir_fault := None;
                entries := [("a.txt", file_node 10); (".git", dir_node);
                            ("test", dir_node); ("sub", dir_node)] |}
             ("sub", dir_node)); try reflexivity.
    cbn. tauto.
  - apply (@list_includes_directories scenario_disk
             {| readdir_fault := None;
                entries := [("a.txt", file_node 10); (".git", dir_node);
                            ("test", dir_node); ("sub", dir_node)] |}
             ("test", dir_node)); try reflexivity.
    cbn. tauto.
Defined.

(* ================================================================== *)
(** ** The download route *)

Section Download.

Lemma files_download_cases filename w :
  files_download filename w
  = (Returned
       (match existsSync (path_join uploadsDir filename) w with
        | (Returned true, _) =>
            match download_fault w (path_join uploadsDir filename) with
            | Some _ =>
                res_json 500 (JObj [("error", JStr "Failed to download file")])
            | None => res_download (path_join uploadsDir filename)
            end
        | _ => res_json 404 (JObj [("error", JStr "File not found")])
        end), w).
Proof.
  unfold files_download, IO.try_catch, IO.bind, download.
  pose proof (existsSync_pure (path_join uploadsDir filename) w) as Hpure.
  destruct (existsSync (path_join uploadsDir filename) w) as [[[|]|e] w'] eqn:E;
    cbn in Hpure; subst w'; cbn [negb].
  - now destruct (download_fault w (path_join uploadsDir filename)).
  - reflexivity.
  - exfalso. unfold existsSync in E.
    destruct (path_join uploadsDir filename); cbn in E;
      repeat match type of E with
             | context [match ?x with _ => _ end] => destruct x
             end; discriminate.
Qed.

Lemma not_in_store_find w d name :
  uploads w = Some d -> in_store w name = false ->
  find_entry name (entries d) = None.
Proof.
  unfold in_store. intros U. rewrite U. clear U.
  induction (entries d) as [|[n nd] es IH]; cbn [existsb find_entry fst]; auto.
  destruct (n =? name); cbn [orb]; [discriminate|assumption].
Qed.

(** X1.  A name that is an entry name and is not in the store gets the 404
    reply; nothing is handed to the transport and the disk is as it was. *)
Lemma download_missing_entry_is_404 w filename :
  entry_name filename = true ->
  in_store w filename = false ->
  files_download filename w
  = (Returned (res_json 404 (JObj [("error", JStr "File not found")])), w).
Proof.
  intros Hname Hout. rewrite files_download_cases.
  cbn [path_join uploadsDir]. rewrite Hname. unfold existsSync, node_at.
  destruct (uploads w) as [d|] eqn:U; [|reflexivity].
  now rewrite (not_in_store_find w filename U Hout).
Qed.

(** The check of line 119 comes first: when it fails, what
    [res.download] would do is never consulted. *)
Lemma download_checks_before_transfer w filename :
  existsSync (path_join uploadsDir filename) w = (Returned false, w) ->
  files_download filename w
  = (Returned (res_json 404 (JObj [("error", JStr "File not found")])), w).
Proof. intros H. rewrite files_download_cases. now rewrite H. Qed.

(** X2.  A throw of [res.download] on a path that exists gets the 500
    reply. *)
Lemma download_transfer_failure_is_500 w filename e :
  existsSync (path_join uploadsDir filename) w = (Returned true, w) ->
  download_fault w (path_join uploadsDir filename) = Some e ->
  files_download filename w
  = (Returned (res_json 500 (JObj [("error", JStr "Failed to download file")])),
     w).
Proof. intros H F. rewrite files_download_cases. now rewrite H, F. Qed.

End Download.

(** C7, at the input where the route departs from it.  The store is
    empty, so [../server.js] names no item of it; the joined path leaves
    the uploads directory and reaches a file that exists, the check of
    line 119 passes, and the route hands that file to [res.download]
    instead of answering 404. *)
Theorem download_reaches_outside_the_store :
  in_store served_disk "../server.js" = false
  /\ path_join uploadsDir "../server.js" = Other "../server.js"
  /\ files_download "../server.js" served_disk
     = (Returned (res_download (Other "../server.js")), served_disk).
Proof. repeat split. Qed.

(* ================================================================== *)
(** ** Start-up *)

(* ================================================================== *)
(** ** Further properties *)

(** X3.  When the listing is well formed and every entry can be examined,
    [deletedCount + errors.length] is the number of eligible items in the
    sense of section 3 (not hidden, not [test], not a directory). *)
Lemma clear_cache_count_when_examinable w d :
  uploads w = Some d -> readdir_fault d = None ->
  listing_ok (entries d) = true ->
  forallb readable (entries d) = true ->
  exists count lines w',
    files_clear_cache w = (Returned (clear_reply count lines), w')
    /\ (count + length lines = length (eligible (entries d)))%nat.
Proof.
  intros U R Hok Hr. destruct (listing_ok_NoDup _ Hok) as [Hnd Hnames].
  exists (length (deleted (entries d))), (failures (entries d)),
         (with_entries w (survivors (entries d))).
  split; [now apply files_clear_cache_fates|].
  rewrite (deleted_eligible _ Hr), (failures_eligible _ Hr).
  assert (H : forall e, In e (eligible (entries d)) ->
                fate_of e = match unlink_fault (snd e) with
                            | Some message => Failed message
                            | None => Deleted
                            end)
    by (intros; now apply (@eligible_member (entries d))).
  induction (eligible (entries d)) as [|e l IH]; [reflexivity|].
  rewrite deleted_cons, failures_cons. unfold is_deleted.
  rewrite (H e (or_introl eq_refl)).
  specialize (IH (fun x Hx => H x (or_intror Hx))).
  destruct (unlink_fault (snd e)); cbn [length app]; lia.
Qed.

Lemma clear_cache_count_when_examinable_witness :
  exists count lines w',
    files_clear_cache scenario_disk = (Returned (clear_reply count lines), w')
    /\ (count + length lines
        = length (eligible [("a.txt", file_node 10); (".git", dir_node);
                            ("test", dir_node); ("sub", dir_node)]))%nat.
Proof.
  apply (@clear_cache_count_when_examinable scenario_disk
           {| readdir_fault := None;
              entries := [("a.txt", file_node 10); (".git", dir_node);
                          ("test", dir_node); ("sub", dir_node)] |});
    reflexivity.
Defined.

Lemma download_missing_entry_is_404_witness :
  files_download "missing.txt" (disk [])
  = (Returned (res_json 404 (JObj [("error", JStr "File not found")])), disk []).
Proof.
  apply (@download_missing_entry_is_404 (disk []) "missing.txt"); reflexivity.
Defined.

Lemma download_transfer_failure_is_500_witness :
  files_download "a.txt" stuck_disk
  = (Returned (res_json 500 (JObj [("error", JStr "Failed to download file")])),
     stuck_disk).
Proof.
  apply (@download_transfer_failure_is_500 stuck_disk "a.txt"
           (Error "EMFILE: too many open files")); reflexivity.
Defined.

Lemma list_stat_failure_witness :
  files_list opaque_disk
  = (Returned (res_json 500 (JObj [("error", JStr "Failed to list files")])),
     opaque_disk).
Proof.
  apply (@list_stat_failure opaque_disk
           {| readdir_fault := None; entries := [("sub", opaque_dir_node)] |}
           ("sub", opaque_dir_node)); try reflexivity.
  now left.
Defined.

(* ================================================================== *)
(** ** What a clear-cache run leaves behind *)

Section Aftermath.

Lemma is_deleted_deletable e : is_deleted e = deletable e.
Proof.
  destruct e as [name nd]. unfold is_deleted, deletable, fate_of.
  cbn [fst snd].
  destruct (clearable name), (stat_fault nd), (is_dir nd), (unlink_fault nd);
    reflexivity.
Qed.

Lemma survivors_deletable es :
  survivors es = filter (fun e => negb (deletable e)) es.
Proof.
  unfold survivors. apply filter_ext. intros e.
  now rewrite is_deleted_deletable.
Qed.

Lemma deleted_deletable es : deleted es = filter deletable es.
Proof. unfold deleted. apply filter_ext. apply is_deleted_deletable. Qed.

Lemma NoDup_names_filter (f : string * node -> bool) es :
  NoDup (List.map fst es) -> NoDup (List.map fst (filter f es)).
Proof.
  induction es as [|e es IH]; cbn [filter List.map]; intros H; auto.
  inversion H as [|? ? Hfresh Hrest]; subst.
  destruct (f e); cbn [List.map]; auto.
  constructor; auto.
  intros Hin. apply Hfresh. apply in_map_iff in Hin as (x & Hx & Hin).
  apply filter_In in Hin as [Hin _]. apply in_map_iff. now exists x.
Qed.

Lemma entry_names_filter (f : string * node -> bool) es :
  forallb entry_name (List.map fst es) = true ->
  forallb entry_name (List.map fst (filter f es)) = true.
Proof.
  rewrite !forallb_forall. intros H n Hin. apply H.
  apply in_map_iff in Hin as (x & Hx & Hin).
  apply filter_In in Hin as [Hin _]. apply in_map_iff. now exists x.
Qed.

Lemma deleted_survivors es : deleted (survivors es) = [].
Proof.
  unfold deleted, survivors. rewrite filter_filter.
  transitivity (filter (fun _ : string * node => false) es);
    [|apply filter_false].
  apply filter_ext. intros e. now destruct (is_deleted e).
Qed.

Lemma survivors_survivors es : survivors (survivors es) = survivors es.
Proof.
  unfold survivors. rewrite filter_filter. apply filter_ext. intros e.
  now destruct (is_deleted e).
Qed.

Lemma failures_survivors es : failures (survivors es) = failures es.
Proof.
  unfold failures, survivors. symmetry. apply flat_map_filter.
  intros e _ He. apply negb_false_iff in He. unfold is_deleted in He.
  now destruct (fate_of e).
Qed.

Lemma files_clear_cache_ok w d :
  uploads w = Some d -> readdir_fault d = None ->
  listing_ok (entries d) = true ->
  files_clear_cache w
  = (Returned (clear_reply (length (deleted (entries d)))
                           (failures (entries d))),
     with_entries w (survivors (entries d))).
Proof.
  intros U R Hok. destruct (listing_ok_NoDup _ Hok) as [Hnd Hnames].
  now apply files_clear_cache_fates.
Qed.

End Aftermath.

(** X5.  A second clear-cache run right after a first one over a
    well-formed listing deletes nothing, reports the same error lines as
    the first, and leaves the disk exactly as the first run left it. *)
Theorem clear_cache_twice w d :
  uploads w = Some d -> readdir_fault d = None ->
  listing_ok (entries d) = true ->
  exists count lines w1,
    files_clear_cache w = (Returned (clear_reply count lines), w1)
    /\ files_clear_cache w1 = (Returned (clear_reply 0 lines), w1).
Proof.
  intros U R Hok.
  exists (length (deleted (entries d))), (failures (entries d)),
         (with_entries w (survivors (entries d))).
  split; [now apply files_clear_cache_ok|].
  destruct (listing_ok_NoDup _ Hok) as [Hnd Hnames].
  pose proof (uploads_with_entries w (survivors (entries d)) U) as U1.
  rewrite (@files_clear_cache_fates _ _ U1 R); cbn [entries].
  - now rewrite deleted_survivors, failures_survivors, survivors_survivors,
      with_entries_twice.
  - now apply NoDup_names_filter.
  - now apply entry_names_filter.
Qed.

Lemma clear_cache_twice_witness :
  exists count lines w1,
    files_clear_cache xyz_disk = (Returned (clear_reply count lines), w1)
    /\ files_clear_cache w1 = (Returned (clear_reply 0 lines), w1).
Proof.
  apply (@clear_cache_twice xyz_disk
           {| readdir_fault := None;
              entries := [("x", file_node 1); ("y", locked_node);
                          ("z", file_node 2)] |});
    reflexivity.
Defined.

(** X6.  Over a well-formed listing a clear-cache run removes from the
    uploads directory exactly the deletable entries and keeps all others
    in their order: hidden entries, [test], directories, and every entry
    it reported an error for.  It adds nothing and changes nothing
    outside the directory. *)
Theorem clear_cache_removes_only_deletable w d :
  uploads w = Some d -> readdir_fault d = None ->
  listing_ok (entries d) = true ->
  uploads (snd (files_clear_cache w))
  = Some {| readdir_fault := None;
            entries := filter (fun e => negb (deletable e)) (entries d) |}
  /\ elsewhere (snd (files_clear_cache w)) = elsewhere w
  /\ download_fault (snd (files_clear_cache w)) = download_fault w.
Proof.
  intros U R Hok. rewrite (files_clear_cache_ok w U R Hok). cbn [snd].
  unfold with_entries. rewrite U. cbn. rewrite R, survivors_deletable.
  repeat split.
Qed.

Lemma clear_cache_removes_only_deletable_witness :
  uploads (snd (files_clear_cache scenario_disk))
  = Some {| readdir_fault := None;
            entries := filter (fun e => negb (deletable e))
                         [("a.txt", file_node 10); (".git", dir_node);
                          ("test", dir_node); ("sub", dir_node)] |}
  /\ elsewhere (snd (files_clear_cache scenario_disk)) = elsewhere scenario_disk
  /\ download_fault (snd (files_clear_cache scenario_disk))
     = download_fault scenario_disk.
Proof.
  apply (@clear_cache_removes_only_deletable scenario_disk
           {| readdir_fault := None;
              entries := [("a.txt", file_node 10); (".git", dir_node);
                          ("test", dir_node); ("sub", dir_node)] |});
    reflexivity.
Defined.

(** X7.  Over a well-formed listing the clear-cache reply carries as
    [deletedCount] the number of deletable entries, and as [errors] one
    line [name: message] per entry whose [statSync] or [unlinkSync]
    threw, in listing order, with the message of the call that threw. *)
Theorem clear_cache_reply_by_entry w d :
  uploads w = Some d -> readdir_fault d = None ->
  listing_ok (entries d) = true ->
  fst (files_clear_cache w)
  = Returned
      (clear_reply
         (length (filter deletable (entries d)))
         (flat_map
            (fun e =>
               if clearable (fst e) then
                 match stat_fault (snd e) with
                 | Some message => [error_line (fst e) message]
                 | None =>
                     if is_dir (snd e) then []
                     else match unlink_fault (snd e) with
                          | Some message => [error_line (fst e) message]
                          | None => []
                          end
                 end
               else [])
            (entries d))).
Proof.
  intros U R Hok. rewrite (files_clear_cache_ok w U R Hok). cbn [fst].
  rewrite deleted_deletable. do 2 f_equal. unfold failures.
  apply flat_map_ext. intros [name nd]. unfold fate_of. cbn [fst snd].
  destruct (clearable name), (stat_fault nd), (is_dir nd), (unlink_fault nd);
    reflexivity.
Qed.

Lemma clear_cache_reply_by_entry_witness :
  fst (files_clear_cache xyz_disk)
  = Returned
      (clear_reply
         (length (filter deletable
                    [("x", file_node 1); ("y", locked_node); ("z", file_node 2)]))
         (flat_map
            (fun e =>
               if clearable (fst e) then
                 match stat_fault (snd e) with
                 | Some message => [error_line (fst e) message]
                 | None =>
                     if is_dir (snd e) then []
                     else match unlink_fault (snd e) with
                          | Some message => [error_line (fst e) message]
                          | None => []
                          end
                 end
               else [])
            [("x", file_node 1); ("y", locked_node); ("z", file_node 2)])).
Proof.
  apply (@clear_cache_reply_by_entry xyz_disk
           {| readdir_fault := None;
              entries := [("x", file_node 1); ("y", locked_node);
                          ("z", file_node 2)] |});
    reflexivity.
Defined.

(** X8.  A file the clear-cache run could delete was downloadable before
    the run and is not found after it: the download route hands it to
    [res.download] on the disk before, and answers 404 on the disk the
    run leaves. *)
Theorem download_after_clear_is_not_found w d name nd :
  uploads w = Some d -> readdir_fault d = None ->
  listing_ok (entries d) = true ->
  In (name, nd) (entries d) -> deletable (name, nd) = true ->
  download_fault w (Entry name) = None ->
  files_download name w = (Returned (res_download (Entry name)), w)
  /\ files_download name (snd (files_clear_cache w))
     = (Returned (res_json 404 (JObj [("error", JStr "File not found")])),
        snd (files_clear_cache w)).
Proof.
  intros U R Hok Hin Hdel Hfault.
  destruct (listing_ok_NoDup _ Hok) as [Hnd Hnames].
  assert (Hname : entry_name name = true).
  { rewrite forallb_forall in Hnames. apply Hnames.
    apply in_map_iff. now exists (name, nd). }
  assert (Hstat : stat_fault nd = None).
  { unfold deletable in Hdel. cbn [fst snd] in Hdel.
    destruct (stat_fault nd); [|reflexivity].
    rewrite andb_false_r in Hdel. discriminate. }
  split.
  - rewrite files_download_cases. cbn [path_join uploadsDir].
    rewrite Hname. unfold existsSync, node_at. rewrite U.
    rewrite (@find_entry_in (entries d) name nd Hnd Hin), Hstat.
    now rewrite Hfault.
  - rewrite (files_clear_cache_ok w U R Hok). cbn [snd].
    rewrite files_download_cases. cbn [path_join uploadsDir].
    rewrite Hname. unfold existsSync, node_at.
    rewrite (uploads_with_entries w _ U). cbn [entries].
    rewrite find_entry_fresh; [reflexivity|].
    intros Hin'. apply in_map_iff in Hin' as ([n x] & Hn & Hx).
    cbn [fst] in Hn. subst n. unfold survivors in Hx.
    apply filter_In in Hx as [Hx Hkeep].
    assert (x = nd).
    { pose proof (@find_entry_in (entries d) name nd Hnd Hin) as F1.
      pose proof (@find_entry_in (entries d) name x Hnd Hx) as F2.
      congruence. }
    subst x. rewrite is_deleted_deletable, Hdel in Hkeep. discriminate.
Qed.

Lemma download_after_clear_is_not_found_witness :
  files_download "a.txt" scenario_disk
  = (Returned (res_download (Entry "a.txt")), scenario_disk)
  /\ files_download "a.txt" (snd (files_clear_cache scenario_disk))
     = (Returned (res_json 404 (JObj [("error", JStr "File not found")])),
        snd (files_clear_cache scenario_disk)).
Proof.
  apply (@download_after_clear_is_not_found scenario_disk
           {| readdir_fault := None;
              entries := [("a.txt", file_node 10); (".git", dir_node);
                          ("test", dir_node); ("sub", dir_node)] |}
           "a.txt" (file_node 10)); try reflexivity.
  now left.
Defined.

(* ================================================================== *)
(** ** Handlers as Express sees them *)

Section Handlers.

Lemma readdirSync_pure p w : snd (readdirSync p w) = w.
Proof.
  unfold readdirSync.
  destruct p; cbn;
    repeat match goal with
           | |- context [match ?x with _ => _ end] => destruct x; cbn
           end; reflexivity.
Qed.

Lemma map_describe_pure names w : snd (IO.map describe names w) = w.
Proof.
  induction names as [|n names IH]; cbn [IO.map]; [reflexivity|].
  unfold IO.bind at 1. pose proof (describe_pure n w) as Hn.
  destruct (describe n w) as [[j|e] w1]; cbn in Hn; subst w1; [|reflexivity].
  unfold IO.bind at 1.
  destruct (IO.map describe names w) as [[js|e] w2]; cbn in IH; subst w2;
    reflexivity.
Qed.

Lemma files_list_answers w :
  exists r, files_list w = (Returned r, w).
Proof.
  unfold files_list, IO.try_catch, IO.bind at 1.
  pose proof (readdirSync_pure uploadsDir w) as Hr.
  destruct (readdirSync uploadsDir w) as [[names|e] w1]; cbn in Hr; subst w1.
  - unfold IO.bind at 1.
    pose proof (map_describe_pure
                  (filter (fun file => negb (startsWith file ".")) names) w) as Hm.
    destruct (IO.map describe _ w) as [[js|e] w2]; cbn in Hm; subst w2;
      eexists; reflexivity.
  - eexists; reflexivity.
Qed.

(** The loop neither creates nor removes the uploads directory. *)
Lemma clear_loop_present files :
  forall count lines w,
    present (snd (clear_loop files count lines w)) = present w.
Proof.
  induction files as [|f rest IH]; intros count lines w; [reflexivity|].
  set (p := path_join uploadsDir f).
  destruct (statSync_cases p w) as [[e He]|[stats Hs]].
  - rewrite (@clear_loop_stat_throws f rest count lines w e He). apply IH.
  - destruct (isDirectory stats) eqn:D.
    + rewrite (@clear_loop_directory f rest count lines w stats Hs D). apply IH.
    + destruct (unlinkSync_cases p w) as [[e He]|(nd & _ & _ & _ & _ & Hu)].
      * rewrite (@clear_loop_unlink_throws f rest count lines w stats e Hs D He).
        apply IH.
      * rewrite (@clear_loop_unlinked f rest count lines w stats _ Hs D Hu).
        rewrite IH. apply uploads_present_without.
Qed.

End Handlers.

(** X9.  The list and download routes only read: on every disk, for
    every file name, each of them returns a reply (no exception reaches
    Express) and leaves the disk exactly as it found it. *)
Theorem list_and_download_only_read w :
  (exists r, files_list w = (Returned r, w))
  /\ (forall filename, exists r, files_download filename w = (Returned r, w)).
Proof.
  split; [apply files_list_answers|].
  intros filename. rewrite files_download_cases. eexists. reflexivity.
Qed.

(** X10.  On every disk the clear-cache route returns a reply, and it is
    one of three: the 200 "No cache to clear" reply or the 500 error
    reply, both with the disk untouched, or the 200 / 207 reply built
    from the loop's count and error lines.  The status is 207 exactly
    when at least one error line was collected, also when nothing was
    deleted.  The route never creates or removes the uploads directory. *)
Theorem clear_cache_always_answers w :
  exists r w',
    files_clear_cache w = (Returned r, w')
    /\ present w' = present w
    /\ ((r = res_json 200 (JObj [("message", JStr "No cache to clear")])
         /\ w' = w /\ present w = false)
        \/ (exists message,
              r = res_json 500 (JObj [
                    ("error", JStr ("Failed to clear cache: " ++ message))])
              /\ w' = w)
        \/ (exists count lines,
              r = clear_reply count lines
              /\ exists body,
                   r = res_json (if (0 <? length lines)%nat then 207 else 200)
                                body)).
Proof.
  destruct (uploads w) as [d|] eqn:U.
  - destruct (readdir_fault d) as [message|] eqn:R.
    + rewrite (@files_clear_cache_listing_throws w d message U R).
      eexists _, w. split; [reflexivity|]. split; [reflexivity|].
      right. left. now exists message.
    + destruct (clear_loop_accounts
                  (filter clearable (List.map fst (entries d))) 0 [] w)
        as (count & lines & w' & Hrun & _).
      cbn [app] in Hrun.
      rewrite (@files_clear_cache_loop w d count lines w' U R Hrun).
      eexists _, w'. split; [reflexivity|]. split.
      * pose proof (clear_loop_present
                      (filter clearable (List.map fst (entries d))) 0 [] w) as P.
        now rewrite Hrun in P.
      * right. right. exists count, lines. split; [reflexivity|].
        unfold clear_reply. destruct (0 <? length lines)%nat; eexists; reflexivity.
  - rewrite (files_clear_cache_no_root w U).
    eexists _, w. split; [reflexivity|]. split; [reflexivity|].
    left. unfold present. now rewrite U.
Qed.

(* ================================================================== *)
(** ** Start-up, from loading the file to listening *)

Section ModuleLoad.

Lemma ensure_uploads_cases fault w :
  ensure_uploads fault w
  = match uploads w, fault with
    | Some _, _ => (Returned tt, w)
    | None, Some message => (Threw (Error message), w)
    | None, None => (Returned tt, snd (mkdirSync_uploadsDir None w))
    end.
Proof.
  unfold ensure_uploads, IO.bind, existsSync, uploadsDir,
    mkdirSync_uploadsDir.
  destruct (uploads w) eqn:U; cbn; [reflexivity|].
  destruct fault; cbn; now rewrite ?U.
Qed.

End ModuleLoad.

(** X13.  On a disk without uploads directory the list route answers
    500 and the clear-cache route answers "No cache to clear"; once
    the file has been loaded ([fs.mkdirSync] succeeding) the directory
    exists and is empty, and on that disk the list route answers 200 with
    an empty array, the clear-cache route answers 200 "Cache cleared
    successfully" with [deletedCount] 0, and nothing else on the disk has
    changed.  On a disk that has the directory, loading changes nothing. *)
Theorem load_creates_the_uploads_directory w :
  match uploads w with
  | Some _ => forall fault, ensure_uploads fault w = (Returned tt, w)
  | None =>
      files_list w
      = (Returned (res_json 500 (JObj [("error", JStr "Failed to list files")])),
         w)
      /\ files_clear_cache w
         = (Returned (res_json 200 (JObj [("message", JStr "No cache to clear")])),
            w)
      /\ exists w',
           ensure_uploads None w = (Returned tt, w')
           /\ uploads w' = Some {| readdir_fault := None; entries := [] |}
           /\ elsewhere w' = elsewhere w
           /\ files_list w' = (Returned (res_json 200 (JArr [])), w')
           /\ files_clear_cache w'
              = (Returned (res_json 200 (JObj [
                   ("message", JStr "Cache cleared successfully");
                   ("deletedCount", JNum 0)])), w')
  end.
Proof.
  destruct (uploads w) as [d|] eqn:U.
  - intros fault. rewrite ensure_uploads_cases. now rewrite U.
  - split; [|split].
    + unfold files_list, IO.try_catch, IO.bind, readdirSync, uploadsDir.
      now rewrite U.
    + now apply files_clear_cache_no_root.
    + eexists. rewrite ensure_uploads_cases, U.
      split; [reflexivity|].
      unfold mkdirSync_uploadsDir. rewrite U. cbn.
      repeat split.
Qed.

(* ================================================================== *)
(** ** The client-side routing page and the order of the stack *)

Section Stack.



Variable ex : platform.
Variable rq : req.

(** A layer that does not apply to the request may as well be absent. *)
Lemma dispatch_skips before l after w :
  applies ex l rq = false ->
  dispatch ex (before ++ l :: after) rq w = dispatch ex (before ++ after) rq w.
Proof.
  intros Hl. revert w.
  induction before as [|b before IH]; intros w; cbn [app dispatch].
  - now rewrite Hl.
  - destruct (applies ex b rq); [|apply IH].
    unfold IO.bind.
    destruct (handler_of b rq w) as [[[a|]|e] w1]; try reflexivity. apply IH.
Qed.

(** Nothing after a layer that applies and always answers is reached. *)
Lemma dispatch_stops before l after :
  applies ex l rq = true ->
  (forall w, exists a, handler_of l rq w = (Returned (Some a), w)) ->
  forall w,
    dispatch ex (before ++ l :: after) rq w
    = dispatch ex (before ++ [l]) rq w.
Proof.
  intros Hl Hanswers.
  induction before as [|b before IH]; intros w; cbn [app dispatch].
  - rewrite Hl. unfold IO.bind. destruct (Hanswers w) as [a Ha].
    now rewrite Ha.
  - destruct (applies ex b rq); [|apply IH].
    unfold IO.bind.
    destruct (handler_of b rq w) as [[[a|]|e] w1]; try reflexivity. apply IH.
Qed.

(** Layers that pass the request on without touching the disk. *)
Lemma dispatch_passes before after w :
  (forall l, In l before -> applies ex l rq = true ->
             handler_of l rq w = (Returned None, w)) ->
  dispatch ex (before ++ after) rq w = dispatch ex after rq w.
Proof.
  induction before as [|b before IH]; intros H; cbn [app dispatch];
    [reflexivity|].
  destruct (applies ex b rq) eqn:Hb.
  - unfold IO.bind. rewrite (H b (or_introl eq_refl) Hb).
    apply IH. intros l Hin. apply H. now right.
  - apply IH. intros l Hin. apply H. now right.
Qed.

Lemma client_side_routing_answers w :
  exists a, client_side_routing rq w = (Returned (Some a), w).
Proof.
  unfold client_side_routing.
  destruct (startsWith (req_url rq) "/api" || startsWith (req_url rq) "/uploads"
            || includes (req_url rq) "."); eexists; reflexivity.
Qed.

End Stack.


(** X15.  In production with the front end built, the [app.get('*')]
    route stands in the stack before everything [startServer] mounts and
    always answers.  So for a GET or HEAD request (the pattern [*]
    matching its URL), whatever is mounted later makes no difference to
    the answer: no such request reaches the list, download or health
    route. *)
Theorem catch_all_shadows_later_routes ex cfg later rq w :
  production cfg = true -> frontend_built cfg = true ->
  match req_method rq with GET | HEAD => true | _ => false end = true ->
  matches ex "*" (req_url rq) = true ->
  dispatch ex ((middleware ex ++ frontend ex cfg) ++ later) rq w
  = dispatch ex (middleware ex ++ frontend ex cfg) rq w.
Proof.
  intros Hp Hb Hm Hstar. unfold frontend. rewrite Hp, Hb.
  change (middleware ex ++ [app_use "/" (static ex frontendBuildPath);
                            app_get "*" client_side_routing])%list
    with (middleware ex ++ [app_use "/" (static ex frontendBuildPath)]
          ++ [app_get "*" client_side_routing])%list.
  rewrite (app_assoc (middleware ex)), <- (app_assoc _ _ later).
  cbn [app].
  apply dispatch_stops.
  - cbn [applies]. destruct (req_method rq); try discriminate; assumption.
  - intros w0. apply client_side_routing_answers.
Qed.

Lemma catch_all_shadows_later_routes_witness :
  dispatch plain_platform
    ((middleware plain_platform ++ frontend plain_platform production_build)
     ++ api_routes plain_platform
          {| blobStorageInitialized := false; api_files := fallback_routes;
             health_route := true; listening := true |})
    {| req_method := GET; req_url := "/api/files/list" |} scenario_disk
  = dispatch plain_platform
      (middleware plain_platform ++ frontend plain_platform production_build)
      {| req_method := GET; req_url := "/api/files/list" |} scenario_disk.
Proof.
  apply (@catch_all_shadows_later_routes plain_platform production_build);
    reflexivity.
Defined.

(** X16.  In production with the front end built, a GET or HEAD request
    whose URL starts with [/api] and that the middleware and the static
    front end pass on is answered 404 "Not found" by the page handler,
    whatever [startServer] mounted: the health, list and download routes
    are never called. *)
Theorem production_get_api_is_not_found ex cfg s rq w :
  production cfg = true -> frontend_built cfg = true ->
  match req_method rq with GET | HEAD => true | _ => false end = true ->
  matches ex "*" (req_url rq) = true ->
  startsWith (req_url rq) "/api" = true ->
  (forall l,
      In l (middleware ex ++ [app_use "/" (static ex frontendBuildPath)]) ->
      applies ex l rq = true -> handler_of l rq w = (Returned None, w)) ->
  dispatch ex ((middleware ex ++ frontend ex cfg) ++ api_routes ex s) rq w
  = (Returned (Some (res_send 404 "Not found")), w).
Proof.
  intros Hp Hb Hm Hstar Hapi Hpass. unfold frontend. rewrite Hp, Hb.
  change (middleware ex ++ [app_use "/" (static ex frontendBuildPath);
                            app_get "*" client_side_routing])%list
    with (middleware ex ++ [app_use "/" (static ex frontendBuildPath)]
          ++ [app_get "*" client_side_routing])%list.
  rewrite (app_assoc (middleware ex)), <- (app_assoc _ _ (api_routes ex s)).
  rewrite (@dispatch_passes ex rq _ _ w Hpass).
  cbn [app dispatch applies].
  assert (Ha : match req_method rq with
               | GET | HEAD => matches ex "*" (req_url rq)
               | _ => false
               end = true)
    by (destruct (req_method rq); try discriminate; assumption).
  rewrite Ha. unfold IO.bind. cbn [handler_of].
  unfold client_side_routing. rewrite Hapi. reflexivity.
Qed.

Lemma production_get_api_is_not_found_witness :
  dispatch plain_platform
    ((middleware plain_platform ++ frontend plain_platform production_build)
     ++ api_routes plain_platform
          {| blobStorageInitialized := false; api_files := fallback_routes;
             health_route := true; listening := true |})
    {| req_method := GET; req_url := "/api/health" |} scenario_disk
  = (Returned (Some (res_send 404 "Not found")), scenario_disk).
Proof.
  apply (@production_get_api_is_not_found plain_platform production_build);
    try reflexivity.
  intros l Hin _. cbn in Hin.
  destruct Hin as [<-|[<-|[<-|[<-|[<-|[]]]]]]; reflexivity.
Defined.



(** X18.  Outside production, or without a built front end, once
    [app.listen] has bound the port, a GET request whose URL matches
    [/api/health] and no earlier route or mount path, and that the
    middleware passes on, is answered by the health route: 200 with
    [blobStorage] [connected] when [initializeStorage] succeeded and
    [fallback] when it threw. *)
Theorem health_is_served_outside_production ex cfg env rq w :
  production cfg && frontend_built cfg = false ->
  app_listen env = bound ->
  req_method rq = GET ->
  matches ex "/api/health" (req_url rq) = true ->
  matches ex "/api/files/list" (req_url rq) = false ->
  matches ex "/api/files/download/:filename" (req_url rq) = false ->
  mounted ex "/api/files" (req_url rq) = false ->
  mounted ex "/api/auth" (req_url rq) = false ->
  (forall l,
      In l (middleware ex) ->
      applies ex l rq = true -> handler_of l rq w = (Returned None, w)) ->
  exists s,
    main env = Running s
    /\ dispatch ex ((middleware ex ++ frontend ex cfg) ++ api_routes ex s) rq w
       = (Returned (Some (res_reply (res_json 200 (JObj [
            ("status", JStr "ok");
            ("blobStorage",
             JStr match initializeStorage env with
                  | None => "connected"
                  | Some _ => "fallback"
                  end)])))), w).
Proof.
  intros Hcfg Hbound Hm Hh Hl Hd Hf Ha Hpass.
  assert (Hfront : frontend ex cfg = []).
  { unfold frontend.
    destruct (production cfg), (frontend_built cfg);
      try reflexivity; discriminate. }
  rewrite Hfront, app_nil_r.
  destruct env as [st co rr uf ua li]. cbn in Hbound. subst li.
  destruct st, co, rr, uf, ua; eexists; (split; [cbn; reflexivity|]);
    rewrite (@dispatch_passes ex rq _ _ w Hpass);
    cbn [api_routes inline_routes api_files health_route
         blobStorageInitialized app dispatch applies handler_of
         initializeStorage];
    rewrite Hm, ?Hl, ?Hd, ?Hf, ?Ha, Hh; reflexivity.
Qed.

Lemma health_is_served_outside_production_witness :
  exists s,
    main storage_down = Running s
    /\ dispatch plain_platform
         ((middleware plain_platform
           ++ frontend plain_platform
                {| mkdir_fault := None; require_services := None;
                   NODE_ENV := None; frontend_built := true |})
          ++ api_routes plain_platform s)
         {| req_method := GET; req_url := "/api/health" |} scenario_disk
       = (Returned (Some (res_reply (res_json 200 (JObj [
            ("status", JStr "ok");
            ("blobStorage",
             JStr match initializeStorage storage_down with
                  | None => "connected"
                  | Some _ => "fallback"
                  end)])))), scenario_disk).
Proof.
  apply (@health_is_served_outside_production plain_platform
           {| mkdir_fault := None; require_services := None;
              NODE_ENV := None; frontend_built := true |}
           storage_down); try reflexivity.
  intros l Hin _. cbn in Hin.
  destruct Hin as [<-|[<-|[<-|[<-|[]]]]]; reflexivity.
Defined.

(* ================================================================== *)
(** ** What start-up leaves, step by step *)

(** X11.  What [startServer] leaves is decided step by step.  The flag
    behind the health route records whether [initializeStorage]
    succeeded, and what [initializeCosmosDb] did leaves no trace.  The
    inline routes are mounted exactly when the [try] of lines 81-88
    threw: alone when a [require] or the first [app.use] threw, and
    behind the compiled file router, which stays mounted, when it was
    the second [app.use] that threw; in that case a request the compiled
    router answers never reaches the inline routes.  The health route is
    always mounted.  The process keeps running exactly when
    [app.listen] bound the port; when it threw or the server emitted
    ['error'], the process ends with code 1. *)
Theorem startup_state env :
  exists s,
    s = {| blobStorageInitialized :=
             match initializeStorage env with
             | None => true
             | Some _ => false
             end;
           api_files :=
             match require_routes env, use_fileRoutes env,
                   use_authRoutes env with
             | None, None, None => compiled_routes
             | None, None, Some _ => compiled_then_fallback
             | _, _, _ => fallback_routes
             end;
           health_route := true;
           listening :=
             match app_listen env with
             | bound => true
             | _ => false
             end |}
    /\ startServer env loaded
       = (match app_listen env with
          | listen_throws e => Threw e
          | _ => Returned tt
          end, s)
    /\ main env
       = match app_listen env with
         | bound => Running s
         | _ => Exited 1
         end
    /\ (forall ex rq w a w',
          api_files s = compiled_then_fallback ->
          mounted ex "/api/files" (req_url rq) = true ->
          fileRoutes ex rq w = (Returned (Some a), w') ->
          dispatch ex (api_routes ex s) rq w = (Returned (Some a), w')).
Proof.
  eexists. split; [reflexivity|]. split; [|split].
  - destruct env as [[e1|] [e2|] [e3|] [e4|] [e5|] [|e6|e6]]; reflexivity.
  - destruct env as [[e1|] [e2|] [e3|] [e4|] [e5|] [|e6|e6]]; reflexivity.
  - intros ex rq w a w' Hroutes Hmount Hanswer.
    unfold api_routes. rewrite Hroutes. cbn [app dispatch applies handler_of].
    rewrite Hmount. unfold IO.bind. now rewrite Hanswer.
Qed.

(** X12.  From line 15 on, what decides whether the process serves:
    a throw of [fs.mkdirSync] when the uploads directory has to be
    created, or of the [require] of the service modules, ends it with
    code 1 before [startServer] is called (in the second case a missing
    uploads directory has already been created); once those statements
    have returned, the process serves exactly when [app.listen] bound the
    port, and ends with code 1 when it threw or the server emitted
    ['error'].  What [initializeStorage], [initializeCosmosDb] and the
    loading of the route modules did plays no part.  When the process
    serves, the uploads directory exists and the stack holds the
    middleware, then the production front end, then what [startServer]
    mounted. *)
Theorem program_serves_or_crashes ex cfg env w :
  load ex cfg w
  = match uploads w, mkdir_fault cfg, require_services cfg with
    | None, Some message, _ => (Threw (Error message), w)
    | Some _, _, Some e => (Threw e, w)
    | None, None, Some e => (Threw e, snd (mkdirSync_uploadsDir None w))
    | Some _, _, None => (Returned (middleware ex ++ frontend ex cfg)%list, w)
    | None, None, None =>
        (Returned (middleware ex ++ frontend ex cfg)%list,
         snd (mkdirSync_uploadsDir None w))
    end
  /\ match load ex cfg w with
     | (Threw _, w') => program ex cfg env w = (Crashed 1, w')
     | (Returned stack, w') =>
         match app_listen env with
         | bound =>
             exists s,
               program ex cfg env w
               = (Serving s (stack ++ api_routes ex s), w')
               /\ listening s = true
               /\ health_route s = true
               /\ present w' = true
         | _ => program ex cfg env w = (Crashed 1, w')
         end
     end.
Proof.
  assert (Hload : load ex cfg w
    = match uploads w, mkdir_fault cfg, require_services cfg with
      | None, Some message, _ => (Threw (Error message), w)
      | Some _, _, Some e => (Threw e, w)
      | None, None, Some e => (Threw e, snd (mkdirSync_uploadsDir None w))
      | Some _, _, None => (Returned (middleware ex ++ frontend ex cfg)%list, w)
      | None, None, None =>
          (Returned (middleware ex ++ frontend ex cfg)%list,
           snd (mkdirSync_uploadsDir None w))
      end).
  { unfold load, IO.bind. rewrite ensure_uploads_cases.
    destruct (uploads w), (mkdir_fault cfg), (require_services cfg);
      reflexivity. }
  split; [exact Hload|].
  unfold program. rewrite Hload. unfold present.
  destruct (uploads w) as [d|] eqn:U;
    destruct (mkdir_fault cfg) as [m|];
    destruct (require_services cfg) as [e|]; try reflexivity;
    destruct env as [[e1|] [e2|] [e3|] [e4|] [e5|] [|e6|e6]];
    first [ reflexivity
          | eexists; split; [reflexivity|];
            cbn; rewrite ?U; repeat split ].
Qed.

(** C3, at an input where the code departs from it.  [initializeStorage]
    throws, the route modules do not load, the port is bound: the process
    runs, the inline routes and the health route are mounted, and the
    health handler on its own says [fallback].  But in production with
    the front end built, the [app.get('*')] route of lines 42-51 was
    installed first, so GET [/api/health] and GET [/api/files/list] are
    answered 404 "Not found" and never reach those routes. *)
Theorem storage_failure_in_production :
  main storage_down
  = Running {| blobStorageInitialized := false; api_files := fallback_routes;
               health_route := true; listening := true |}
  /\ health false scenario_disk
     = (Returned (res_json 200 (JObj [
          ("status", JStr "ok"); ("blobStorage", JStr "fallback")])),
        scenario_disk)
  /\ fst (program plain_platform production_build storage_down scenario_disk)
     = Serving
         {| blobStorageInitialized := false; api_files := fallback_routes;
            health_route := true; listening := true |}
         ((middleware plain_platform
           ++ frontend plain_platform production_build)
          ++ api_routes plain_platform
               {| blobStorageInitialized := false;
                  api_files := fallback_routes;
                  health_route := true; listening := true |})
  /\ dispatch plain_platform
       ((middleware plain_platform ++ frontend plain_platform production_build)
        ++ api_routes plain_platform
             {| blobStorageInitialized := false; api_files := fallback_routes;
                health_route := true; listening := true |})
       {| req_method := GET; req_url := "/api/health" |} scenario_disk
     = (Returned (Some (res_send 404 "Not found")), scenario_disk)
  /\ dispatch plain_platform
       ((middleware plain_platform ++ frontend plain_platform production_build)
        ++ api_routes plain_platform
             {| blobStorageInitialized := false; api_files := fallback_routes;
                health_route := true; listening := true |})
       {| req_method := GET; req_url := "/api/files/list" |} scenario_disk
     = (Returned (Some (res_send 404 "Not found")), scenario_disk).
Proof. repeat split. Qed.
